(** * lonab_scraper.py: the selector cascade, the element extractor and the report

    A shallow embedding of [scrape_lonab] and [main] of [src/lonab_scraper.py].

    Modelling conventions.
    - A Python [str] is a [string]; one [ascii] stands for one character, read
      as the code point of the same number (the Latin-1 range, which covers
      the French text of the page).  [len] is [String.length].
    - The parsed page is what the code asks of it: the answers of
      [soup.select] and [soup.find_all('div')], and for every tag its text
      nodes and its [class] attribute.
    - The outside world (clock, HTTP exchange, standard output) is a record of
      oracles; the functions thread the number of clock readings and the list
      of document queries as explicit state.
    - The text of the lines written to standard error is diagnostics only
      and is left out; whether standard error takes them, and whether the
      final flush of the streams goes through, is part of the model of
      [main] (the record [streams]). *)

From Stdlib Require Import Ascii String NArith List Bool Lia Sorted.
From stdpp Require Import base list gmap strings.

Import ListNotations.
Local Open Scope string_scope.
Local Open Scope list_scope.

(** ** Characters *)

Module Char.

Definition code (c : ascii) : N := N_of_ascii c.

Definition between (lo hi : N) (c : ascii) : bool :=
  (N.leb lo (code c) && N.leb (code c) hi)%bool.

(** [str.isspace] on one character, which is also the class [\s] of
    [re] on [str] patterns: TAB..CR, FS..US, SPACE, NEL and NBSP. *)
Definition isspace (c : ascii) : bool :=
  (between 9 13 c || between 28 32 c || N.eqb (code c) 133
   || N.eqb (code c) 160)%bool.

(** The class [\d]: the decimal digits. *)
Definition isdigit (c : ascii) : bool := between 48 57 c.

Definition isupper (c : ascii) : bool :=
  (between 65 90 c || (between 192 222 c && negb (N.eqb (code c) 215)))%bool.

(** The class [\w]: alphanumeric characters and the underscore. *)
Definition isword (c : ascii) : bool :=
  (isdigit c || between 65 90 c || between 97 122 c || N.eqb (code c) 95
   || N.eqb (code c) 170 || N.eqb (code c) 181 || N.eqb (code c) 186
   || between 178 179 c || N.eqb (code c) 185 || between 188 190 c
   || (between 192 255 c && negb (N.eqb (code c) 215)
       && negb (N.eqb (code c) 247)))%bool.

(** [str.lower] on one character. *)
Definition lower (c : ascii) : ascii :=
  if isupper c then ascii_of_N (code c + 32) else c.

Definition eqb_nocase (a b : ascii) : bool := Ascii.eqb (lower a) (lower b).

End Char.

(** ** Strings: the [str] methods the scraper calls *)

Module Str.

Definition len (s : string) : nat := String.length s.

Fixpoint lower (s : string) : string :=
  match s with
  | EmptyString => EmptyString
  | String c s' => String (Char.lower c) (lower s')
  end.

Fixpoint lstrip (s : string) : string :=
  match s with
  | EmptyString => EmptyString
  | String c s' => if Char.isspace c then lstrip s' else s
  end.

(** Drops the trailing white space: a character is kept when it is not a
    space or when something is kept after it. *)
Fixpoint rstrip (s : string) : string :=
  match s with
  | EmptyString => EmptyString
  | String c s' =>
      match rstrip s' with
      | EmptyString => if Char.isspace c then EmptyString else String c EmptyString
      | r => String c r
      end
  end.

Definition strip (s : string) : string := rstrip (lstrip s).

Definition is_empty (s : string) : bool :=
  match s with EmptyString => true | _ => false end.

(** [sep.join(parts)] *)
Fixpoint join (sep : string) (parts : list string) : string :=
  match parts with
  | [] => EmptyString
  | [p] => p
  | p :: ps => String.append p (String.append sep (join sep ps))
  end.

(** [s.split(sep)] for a one-character separator: the pieces between the
    separators, empty pieces included. *)
Fixpoint split (sep : ascii) (s : string) : list string :=
  match s with
  | EmptyString => [EmptyString]
  | String c s' =>
      if Ascii.eqb c sep then EmptyString :: split sep s'
      else match split sep s' with
           | [] => [String c EmptyString]
           | p :: ps => String c p :: ps
           end
  end.

Fixpoint startswith (p s : string) : bool :=
  match p, s with
  | EmptyString, _ => true
  | String a p', String b s' => (Ascii.eqb a b && startswith p' s')%bool
  | String _ _, EmptyString => false
  end.

(** [needle in hay] *)
Fixpoint contains (needle hay : string) : bool :=
  (startswith needle hay ||
   match hay with
   | EmptyString => false
   | String _ hay' => contains needle hay'
   end)%bool.

(** [any(word in text for word in words)] *)
Definition any_in (words : list string) (text : string) : bool :=
  existsb (fun w => contains w text) words.

Definition nl : ascii := ascii_of_N 10.
Definition NL : string := String nl EmptyString.

End Str.

(** ** Regular expressions: the part of [re] the scraper uses

    A backtracking matcher with the priorities of [re]: sequences left to
    right, the left branch of an alternative first, greedy repetition.
    One capturing group is supported, which is all the patterns have.
    Under [re.IGNORECASE] a literal matches in either case; a class is
    matched as it stands, the classes of the patterns holding no letter. *)

Module Re.

Inductive regex : Type :=
| Lit (c : ascii)                      (* a literal character *)
| Class (p : ascii -> bool)            (* a character class *)
| Seq (r1 r2 : regex)
| Alt (r1 r2 : regex)
| Rep (r : regex) (lo : nat) (hi : option nat)  (* greedy r{lo,hi} *)
| Group (r : regex)                    (* ( r ), the capturing group *)
| NoGroup (r : regex)                  (* (?: r ) *)
| WordB.                               (* \b *)

(** The matcher's position: the character before the cursor, what is left
    of the subject, and the text of the group once it has closed. *)
Record pos : Type := mkPos {
  prev : option ascii;
  rest : string;
  grp : option string
}.

Definition advance (c : ascii) (s' : string) (p : pos) : pos :=
  mkPos (Some c) s' (grp p).

Fixpoint take (n : nat) (s : string) : string :=
  match n, s with
  | S n', String c s' => String c (take n' s')
  | _, _ => EmptyString
  end.

(** The text between two positions of the same subject. *)
Definition consumed (p q : pos) : string :=
  take (String.length (rest p) - String.length (rest q)) (rest p).

Definition is_word_opt (o : option ascii) : bool :=
  match o with Some c => Char.isword c | None => false end.

Definition next (p : pos) : option ascii :=
  match rest p with String c _ => Some c | EmptyString => None end.

Definition at_boundary (p : pos) : bool :=
  negb (Bool.eqb (is_word_opt (prev p)) (is_word_opt (next p))).

Section Matcher.
Variable icase : bool.               (* re.IGNORECASE *)
Context {A : Type}.

Definition lit_ok (c x : ascii) : bool :=
  if icase then Char.eqb_nocase c x else Ascii.eqb c x.

(** Greedy repetition of [step]: one more round first, and only when all
    that follows fails, stop here.  A round must consume a character, as
    every repeated part of the scraper's patterns does, so the rounds
    are bounded by the length of the subject, which is what [fuel] counts. *)
Fixpoint rep (step : pos -> (pos -> option A) -> option A)
    (fuel lo : nat) (hi : option nat)
    (p : pos) (k : pos -> option A) : option A :=
  let stop := match lo with 0 => k p | S _ => None end in
  match fuel with
  | 0 => stop
  | S fuel' =>
      let more :=
        match hi with
        | Some 0 => None
        | _ =>
            step p (fun q =>
              if Nat.ltb (String.length (rest q)) (String.length (rest p))
              then rep step fuel' (Nat.pred lo) (option_map Nat.pred hi) q k
              else None)
        end in
      match more with
      | Some a => Some a
      | None => stop
      end
  end.

(** [exec r p k]: match [r] at [p], then continue with [k]; [None] when
    every way of matching [r] makes [k] fail. *)
Fixpoint exec (r : regex) (p : pos) (k : pos -> option A) : option A :=
  match r with
  | Lit c =>
      match rest p with
      | String x s' => if lit_ok c x then k (advance x s' p) else None
      | EmptyString => None
      end
  | Class f =>
      match rest p with
      | String x s' => if f x then k (advance x s' p) else None
      | EmptyString => None
      end
  | Seq r1 r2 => exec r1 p (fun q => exec r2 q k)
  | Alt r1 r2 =>
      match exec r1 p k with
      | Some a => Some a
      | None => exec r2 p k
      end
  | Rep r' lo hi => rep (exec r') (S (String.length (rest p))) lo hi p k
  | Group r' =>
      exec r' p (fun q => k (mkPos (prev q) (rest q) (Some (consumed p q))))
  | NoGroup r' => exec r' p k
  | WordB => if at_boundary p then k p else None
  end.
End Matcher.

Fixpoint has_group (r : regex) : bool :=
  match r with
  | Group _ => true
  | Seq r1 r2 | Alt r1 r2 => (has_group r1 || has_group r2)%bool
  | Rep r' _ _ | NoGroup r' => has_group r'
  | _ => false
  end.

(** A match starting at [p]: where it ends. *)
Definition match_at (icase : bool) (r : regex) (p : pos) : option pos :=
  exec icase r (mkPos (prev p) (rest p) None) (fun q => Some q).

(** What [findall] reports for one match: the group when the pattern has
    one (the empty string if it did not take part), the whole match
    otherwise. *)
Definition reported (r : regex) (p q : pos) : string :=
  if has_group r then match grp q with Some g => g | None => EmptyString end
  else consumed p q.

Definition step_over (p : pos) : option pos :=
  match rest p with
  | String c s' => Some (mkPos (Some c) s' None)
  | EmptyString => None
  end.

(** [re.findall]: the matches from left to right, without overlap.  The
    scan resumes where a match ended, one character further when the
    match was empty. *)
Fixpoint scan (icase : bool) (r : regex) (fuel : nat) (p : pos) : list string :=
  match fuel with
  | 0 => []
  | S fuel' =>
      match match_at icase r p with
      | Some q =>
          if Nat.ltb (String.length (rest q)) (String.length (rest p))
          then reported r p q :: scan icase r fuel' (mkPos (prev q) (rest q) None)
          else reported r p q ::
               match step_over p with
               | Some p' => scan icase r fuel' p'
               | None => []
               end
      | None =>
          match step_over p with
          | Some p' => scan icase r fuel' p'
          | None => []
          end
      end
  end.

Definition findall (icase : bool) (r : regex) (s : string) : list string :=
  scan icase r (S (String.length s)) (mkPos None s None).

(** Pattern syntax. *)
Definition d : regex := Class Char.isdigit.                   (* \d *)
Definition s : regex := Class Char.isspace.                   (* \s *)
Definition star (r : regex) : regex := Rep r 0 None.          (* r* *)
Definition plus (r : regex) : regex := Rep r 1 None.          (* r+ *)
Definition opt (r : regex) : regex := Rep r 0 (Some 1).       (* r? *)
Definition times (r : regex) (n : nat) : regex := Rep r n (Some n).   (* r{n} *)
Definition range (r : regex) (n m : nat) : regex := Rep r n (Some m). (* r{n,m} *)

Fixpoint word (w : string) : regex :=
  match w with
  | EmptyString => Rep WordB 0 (Some 0)
  | String c EmptyString => Lit c
  | String c w' => Seq (Lit c) (word w')
  end.

Fixpoint seq (rs : list regex) : regex :=
  match rs with
  | [] => Rep WordB 0 (Some 0)
  | [r] => r
  | r :: rs' => Seq r (seq rs')
  end.

Fixpoint alt (rs : list regex) : regex :=
  match rs with
  | [] => Class (fun _ => false)
  | [r] => r
  | r :: rs' => Alt r (alt rs')
  end.

End Re.

(** ** The patterns of the element extractor (lines 109-139)

    Each pattern is quoted with spaces between its parts. *)

Module Patterns.
Import Re.

Definition one_of (cs : string) (c : ascii) : bool :=
  Str.contains (String c EmptyString) cs.

Definition dd : regex := times d 2.                           (* \d{2} *)

(** [number_patterns] *)

(* \b \d{2} - \d{2} - \d{2} (?: - \d{2} )* \b *)
Definition number_dashes : regex :=
  seq [WordB; dd; Lit "-"; dd; Lit "-"; dd;
       star (NoGroup (Seq (Lit "-") dd)); WordB].

(* \b \d{2} \s+ \d{2} \s+ \d{2} (?: \s+ \d{2} )* \b *)
Definition number_spaces : regex :=
  seq [WordB; dd; plus s; dd; plus s; dd;
       star (NoGroup (Seq (plus s) dd)); WordB].

(* \b \d{1,2} / \d{1,2} / \d{2,4} \b *)
Definition number_slashes : regex :=
  seq [WordB; range d 1 2; Lit "/"; range d 1 2; Lit "/"; range d 2 4; WordB].

Definition number_patterns : list regex :=
  [number_dashes; number_spaces; number_slashes].

(** [money_patterns] *)

Definition digits_spaces_punct : regex :=                     (* [\d\s,.] *)
  Class (fun c => (Char.isdigit c || Char.isspace c || one_of ",." c)%bool).

Definition punct_space : regex :=                             (* [,.\s] *)
  Class (fun c => (one_of ",." c || Char.isspace c)%bool).

(* ( [\d\s,.]+ ) \s* (?: FCFA | CFA | F \s* CFA ) *)
Definition money_fcfa : regex :=
  seq [Group (plus digits_spaces_punct); star s;
       NoGroup (alt [word "FCFA"; word "CFA";
                     seq [Lit "F"; star s; word "CFA"]])].

(* ( \d{1,3} (?: [,.\s] \d{3} )* ) \s* (?: FCFA | CFA ) *)
Definition money_thousands : regex :=
  seq [Group (Seq (range d 1 3)
                  (star (NoGroup (Seq punct_space (times d 3)))));
       star s;
       NoGroup (alt [word "FCFA"; word "CFA"])].

(* ( [\d,.\s]+ ) \s* (?: francs? | F ) *)
Definition money_francs : regex :=
  seq [Group (plus digits_spaces_punct); star s;
       NoGroup (alt [Seq (word "franc") (opt (Lit "s")); Lit "F"])].

Definition money_patterns : list regex :=
  [money_fcfa; money_thousands; money_francs].

(** The pattern of [dates]:  \b \d{1,2} [/-] \d{1,2} [/-] \d{2,4} \b *)
Definition slash_dash : regex := Class (one_of "/-").
Definition date_pattern : regex :=
  seq [WordB; range d 1 2; slash_dash; range d 1 2; slash_dash;
       range d 2 4; WordB].

End Patterns.

(** ** The parsed page *)

(** A tag of the parsed page, as far as the scraper looks at it: the text
    nodes below it in document order, and its [class] attribute. *)
Record Tag : Type := mkTag {
  tag_strings : list string;
  tag_class : option (list string)
}.

(** The parsed page: the answers to the two questions the scraper asks. *)
Record BeautifulSoup : Type := mkSoup {
  select : string -> list Tag;          (* soup.select(selector) *)
  find_all_div : list Tag               (* soup.find_all('div') *)
}.

(** [tag.get_text()]: the text nodes, concatenated. *)
Definition get_text (t : Tag) : string :=
  Str.join EmptyString (tag_strings t).

(** [tag.get_text(separator='\n', strip=True)]: every text node stripped,
    the empty ones dropped, the others joined by the separator. *)
Definition get_text_stripped (sep : string) (t : Tag) : string :=
  Str.join sep
    (List.filter (fun x => negb (Str.is_empty x)) (map Str.strip (tag_strings t))).

(** [element.get('class', [])] *)
Definition get_class (t : Tag) : list string :=
  match tag_class t with Some cs => cs | None => [] end.

(** ** The outside world *)

(** The exception classes of [requests] that matter to the handlers of
    [scrape_lonab], and [Exception] for any other failure. *)
Inductive exn_class : Type :=
| ConnectTimeout | ReadTimeout | Timeout
| ConnectionError | HTTPError | RequestException
| Exception.

Record exn : Type := mkExn { exn_type : exn_class; exn_str : string }.

(** [isinstance(e, requests.exceptions.Timeout)] and the like:
    [ConnectTimeout] derives from both [ConnectionError] and [Timeout]. *)
Definition is_Timeout (c : exn_class) : bool :=
  match c with ConnectTimeout | ReadTimeout | Timeout => true | _ => false end.

Definition is_ConnectionError (c : exn_class) : bool :=
  match c with ConnectTimeout | ConnectionError => true | _ => false end.

Definition is_RequestException (c : exn_class) : bool :=
  match c with Exception => false | _ => true end.

(** Where the 15 seconds of [requests.get(url, timeout=15)] can run out,
    and the class of the exception [requests] raises then: connecting
    gives [ConnectTimeout], waiting for the response gives [ReadTimeout]
    (both in [HTTPAdapter.send]); while the body is read, [requests]
    wraps the [ReadTimeoutError] of the transport in its
    [ConnectionError] ([Response.iter_content]), and the body is read
    inside [requests.get], the request not being a streaming one. *)
Inductive timeout_phase : Type :=
| Connecting | AwaitingResponse | ReadingBody.

Definition timeout_class (p : timeout_phase) : exn_class :=
  match p with
  | Connecting => ConnectTimeout
  | AwaitingResponse => ReadTimeout
  | ReadingBody => ConnectionError
  end.

(** What lines 42-46 come to: the page, parsed, or an exception. *)
Inductive fetched : Type :=
| Page (soup : BeautifulSoup)
| Raise (e : exn).

Record world : Type := mkWorld {
  (** the n-th reading of [datetime.now().isoformat()] *)
  clock : nat -> string;
  (** [requests.get], [raise_for_status] and the parser *)
  fetch : fetched;
  (** [print(text)] on standard output: [None] when the line is written,
      [Some m] when it raises an exception [e] with [str(e) = m] and
      nothing is written *)
  stdout_print : string -> option string
}.

(** ** State: the clock readings and the questions put to the page *)

Inductive query : Type :=
| Select (selector : string)
| FindAll (name : string).

Record state : Type := mkState {
  clock_reads : nat;
  queries : list query
}.

Definition state0 : state := mkState 0 [].

Definition M (A : Type) : Type := state -> A * state.

Definition ret {A} (a : A) : M A := fun st => (a, st).

Definition bind {A B} (m : M A) (f : A -> M B) : M B :=
  fun st => let (a, st') := m st in f a st'.

Notation "'let*' x := m 'in' k" := (bind m (fun x => k))
  (at level 10, x name, m at level 100, k at level 200).

Definition datetime_now (w : world) : M string :=
  fun st => (clock w (clock_reads st),
             mkState (S (clock_reads st)) (queries st)).

Definition soup_select (soup : BeautifulSoup) (selector : string) : M (list Tag) :=
  fun st => (select soup selector,
             mkState (clock_reads st) (queries st ++ [Select selector])).

Definition soup_find_all_div (soup : BeautifulSoup) : M (list Tag) :=
  fun st => (find_all_div soup,
             mkState (clock_reads st) (queries st ++ [FindAll "div"])).

(** ** The report and its items *)

(** [element_data]; the three detector fields are [None] when the key is
    absent from the dictionary. *)
Record element_data : Type := mkItem {
  item_number : nat;
  text_content : string;
  text_lines : list string;
  html_classes : list string;
  extraction_timestamp : string;
  content_length : nat;
  detected_numbers : option (list string);
  detected_amounts : option (list string);
  detected_dates : option (list string);
  content_type : string
}.

(** [result] *)
Record result : Type := mkResult {
  extraction_date : string;
  source_url : string;
  selector : string;
  success : bool;
  error : option string;
  items : list element_data;
  raw_count : nat;
  environment : string
}.

Definition set_selector (x : string) (r : result) : result :=
  mkResult (extraction_date r) (source_url r) x (success r) (error r)
           (items r) (raw_count r) (environment r).

Definition set_success (x : bool) (r : result) : result :=
  mkResult (extraction_date r) (source_url r) (selector r) x (error r)
           (items r) (raw_count r) (environment r).

Definition set_error (x : option string) (r : result) : result :=
  mkResult (extraction_date r) (source_url r) (selector r) (success r) x
           (items r) (raw_count r) (environment r).

Definition set_items (x : list element_data) (r : result) : result :=
  mkResult (extraction_date r) (source_url r) (selector r) (success r) (error r)
           x (raw_count r) (environment r).

Definition set_raw_count (x : nat) (r : result) : result :=
  mkResult (extraction_date r) (source_url r) (selector r) (success r) (error r)
           (items r) x (environment r).

(** ** Constants of the source *)

Definition e_acute : string := String (ascii_of_N 233) EmptyString.
Definition a_grave : string := String (ascii_of_N 224) EmptyString.

Definition url : string := "http://www.lonab.bf".
Definition primary_selector : string := "#block-resultats > div".
Definition alternative_selectors : list string :=
  [".block-resultats div"; "[id*='resultat'] div"; ".results div"; ".tirage div"].
Definition fallback_selector : string := "fallback_keyword_search".
Definition keywords : list string :=
  ["tirage"; "resultat"; "gagnant"; "numero"; "fcfa"].

(** "Aucun element trouve avec tous les selecteurs", with its accents *)
Definition msg_no_elements : string :=
  "Aucun " +:+ e_acute +:+ "l" +:+ e_acute +:+ "ment trouv" +:+ e_acute
  +:+ " avec tous les s" +:+ e_acute +:+ "lecteurs".

(** "Timeout: le site LONAB met trop de temps a repondre", with its accents *)
Definition msg_timeout : string :=
  "Timeout: le site LONAB met trop de temps " +:+ a_grave +:+ " r"
  +:+ e_acute +:+ "pondre".

Definition msg_connection : string := "Erreur de connexion au site LONAB".

Definition msg_network (e : string) : string :=
  "Erreur r" +:+ e_acute +:+ "seau: " +:+ e.

Definition msg_other (e : string) : string := "Erreur: " +:+ e.

Definition msg_critical (e : string) : string := "Erreur critique: " +:+ e.

(** ** The selector cascade (lines 52-82) *)

Definition nonempty {A} (l : list A) : bool :=
  match l with [] => false | _ => true end.

(** The [for] loop over [alternative_selectors] (lines 64-69): [els] is
    what [elements] holds when the loop is entered or resumed. *)
Fixpoint try_alternatives (soup : BeautifulSoup) (alts : list string)
    (els : list Tag) (r : result) : M (list Tag * result) :=
  match alts with
  | [] => ret (els, r)
  | alt_selector :: alts' =>
      let* els' := soup_select soup alt_selector in
      if nonempty els'
      then ret (els', set_raw_count (length els') (set_selector alt_selector r))
      else try_alternatives soup alts' els' r
  end.

(** The test of line 78 on one [div]. *)
Definition keyword_div (div : Tag) : bool :=
  let text := Str.lower (get_text div) in
  (Str.any_in keywords text && Nat.ltb 10 (Str.len (Str.strip text)))%bool.

(** The keyword search (lines 73-82); [els], empty here, is the list the
    matching [div]s are appended to. *)
Definition keyword_search (soup : BeautifulSoup) (els : list Tag) (r : result)
    : M (list Tag * result) :=
  let* all_divs := soup_find_all_div soup in
  let els' := els ++ List.filter keyword_div all_divs in
  ret (els', set_selector fallback_selector (set_raw_count (length els') r)).

(** Lines 52-82: the elements to process and the report, updated. *)
Definition find_elements (soup : BeautifulSoup) (r : result)
    : M (list Tag * result) :=
  let* els := soup_select soup primary_selector in
  let r := set_raw_count (length els) r in
  let* found :=
    (if nonempty els then ret (els, r)
     else try_alternatives soup alternative_selectors els r) in
  let (els, r) := found in
  if nonempty els then ret (els, r)
  else keyword_search soup els r.

(** ** The element extractor (lines 89-152) *)

(** Line 91 *)
Definition lines_of (content : string) : list string :=
  map Str.strip
    (List.filter (fun line => negb (Str.is_empty (Str.strip line)))
       (Str.split Str.nl content)).

(** [list(set(xs))]: the distinct values, in the order of the set. *)
Definition list_set (xs : list string) : list string :=
  elements (list_to_set xs : gset string).

(** A detector key is set when there is a match (lines 120, 135, 140). *)
Definition when_nonempty {A} (xs : list A) (v : list A) : option (list A) :=
  if nonempty xs then Some v else None.

(** Lines 115-118 *)
Definition find_numbers (content : string) : list string :=
  concat (map (fun pattern => Re.findall false pattern content)
              Patterns.number_patterns).

(** Lines 130-133 *)
Definition find_amounts (content : string) : list string :=
  concat (map (fun pattern => map Str.strip (Re.findall true pattern content))
              Patterns.money_patterns).

(** Line 139 *)
Definition find_dates (content : string) : list string :=
  Re.findall false Patterns.date_pattern content.

(** Lines 144-150 *)
Definition classify (content : string) : string :=
  let content_lower := Str.lower content in
  if Str.any_in ["tirage"; "resultat"; "gagnant"] content_lower then "resultat"
  else if Str.any_in ["annonce"; "info"; "prochaine"] content_lower then "annonce"
  else "unknown".

(** Line 90 *)
Definition content_of (element : Tag) : string :=
  get_text_stripped Str.NL element.

(** Line 93: the element is too short to be kept. *)
Definition too_short (element : Tag) : bool :=
  Nat.ltb (Str.len (Str.join Str.NL (lines_of (content_of element)))) 10.

(** Lines 96-150: the item of an element that is kept. *)
Definition make_item (i : nat) (element : Tag) (timestamp : string) : element_data :=
  let content := content_of element in
  let lines := lines_of content in
  let numbers := find_numbers content in
  let amounts := find_amounts content in
  let dates := find_dates content in
  {| item_number := i;
     text_content := Str.join Str.NL lines;
     text_lines := lines;
     html_classes := get_class element;
     extraction_timestamp := timestamp;
     content_length := Str.len content;
     detected_numbers := when_nonempty numbers (list_set numbers);
     detected_amounts := when_nonempty amounts (list_set amounts);
     detected_dates := when_nonempty dates dates;
     content_type := classify content |}.

(** The body of the loop of line 89 over [enumerate(els, i)], appending to
    [acc], which is [result["items"]]. *)
Fixpoint process_elements (w : world) (i : nat) (els : list Tag)
    (acc : list element_data) : M (list element_data) :=
  match els with
  | [] => ret acc
  | element :: els' =>
      if too_short element then process_elements w (S i) els' acc
      else
        let* timestamp := datetime_now w in
        process_elements w (S i) els' (acc ++ [make_item i element timestamp])
  end.

(** ** [scrape_lonab] *)

(** Lines 19-28 *)
Definition initial_result (now : string) : result :=
  {| extraction_date := now;
     source_url := url;
     selector := primary_selector;
     success := false;
     error := None;
     items := [];
     raw_count := 0;
     environment := "render.com" |}.

(** The [except] clauses (lines 157-165), tried in order. *)
Definition handle (e : exn) (r : result) : result :=
  if is_Timeout (exn_type e) then set_error (Some msg_timeout) r
  else if is_ConnectionError (exn_type e) then set_error (Some msg_connection) r
  else if is_RequestException (exn_type e)
       then set_error (Some (msg_network (exn_str e))) r
  else set_error (Some (msg_other (exn_str e))) r.

Definition scrape_lonab (w : world) : M result :=
  let* now := datetime_now w in
  let r := initial_result now in
  match fetch w with
  | Raise e => ret (handle e r)
  | Page soup =>
      let* found := find_elements soup r in
      let (els, r) := found in
      if nonempty els then
        let* new_items := process_elements w 1 (firstn 10 els) (items r) in
        ret (set_success true (set_items new_items r))
      else
        ret (set_error (Some msg_no_elements) r)
  end.

(** ** JSON: the values [json.dumps] is given and the text it writes *)

Module Json.

#[local] Unset Elimination Schemes.

Inductive json : Type :=
| JNull
| JBool (b : bool)
| JInt (n : nat)
| JStr (s : string)
| JArr (vs : list json)
| JObj (kvs : list (string * json)).     (* a dict, in insertion order *)

#[local] Set Elimination Schemes.

(** [d.get(k)] on a JSON object *)
Fixpoint lookup_key (k : string) (kvs : list (string * json)) : option json :=
  match kvs with
  | [] => None
  | (k', v) :: kvs' => if String.eqb k k' then Some v else lookup_key k kvs'
  end.

Definition field (k : string) (v : json) : option json :=
  match v with JObj kvs => lookup_key k kvs | _ => None end.

Definition has_field (k : string) (v : json) : bool :=
  match field k v with Some _ => true | None => false end.

Definition dquote : ascii := ascii_of_N 34.
Definition backslash : ascii := ascii_of_N 92.

Definition hex_digit (n : N) : ascii :=
  if N.ltb n 10 then ascii_of_N (48 + n) else ascii_of_N (87 + n).

(** The replacement of one character by [py_encode_basestring], the
    encoder of [ensure_ascii=False]. *)
Definition escape_char (c : ascii) : string :=
  let n := Char.code c in
  if Ascii.eqb c backslash then String backslash (String backslash EmptyString)
  else if Ascii.eqb c dquote then String backslash (String dquote EmptyString)
  else if N.eqb n 8 then String backslash "b"
  else if N.eqb n 12 then String backslash "f"
  else if N.eqb n 10 then String backslash "n"
  else if N.eqb n 13 then String backslash "r"
  else if N.eqb n 9 then String backslash "t"
  else if N.ltb n 32 then
    String backslash
      (String "u" (String "0" (String "0"
         (String (hex_digit (N.div n 16))
            (String (hex_digit (N.modulo n 16)) EmptyString)))))
  else String c EmptyString.

Fixpoint escape (s : string) : string :=
  match s with
  | EmptyString => EmptyString
  | String c s' => escape_char c +:+ escape s'
  end.

Definition encode_string (s : string) : string :=
  String dquote (escape s +:+ String dquote EmptyString).

Definition digit_char (n : nat) : ascii := ascii_of_nat (48 + n).

Fixpoint decimal_aux (fuel n : nat) (acc : string) : string :=
  match fuel with
  | 0 => acc
  | S fuel' =>
      let acc' := String (digit_char (n mod 10)) acc in
      if Nat.ltb n 10 then acc' else decimal_aux fuel' (n / 10) acc'
  end.

(** [repr] of a non-negative [int] *)
Definition decimal (n : nat) : string := decimal_aux (S n) n EmptyString.

Section Dumps.
Variables item_separator key_separator : string.

Fixpoint dumps (v : json) : string :=
  match v with
  | JNull => "null"
  | JBool true => "true"
  | JBool false => "false"
  | JInt n => decimal n
  | JStr s => encode_string s
  | JArr vs => "[" +:+ Str.join item_separator (map dumps vs) +:+ "]"
  | JObj kvs =>
      "{" +:+ Str.join item_separator
                (map (fun kv => encode_string (fst kv) +:+ key_separator
                                +:+ dumps (snd kv)) kvs)
          +:+ "}"
  end.
End Dumps.

(** [json.dumps(v, ensure_ascii=False, separators=(',', ':'))] *)
Definition dumps_compact : json -> string := dumps "," ":".

(** [json.dumps(v, ensure_ascii=False)] *)
Definition dumps_default : json -> string := dumps ", " ": ".

(** The text of one member of an object, given the texts of its key and
    of its value; [wk] is the white space after the colon. *)
Definition member_text (wk : string) (kv : string * string) : string :=
  encode_string (fst kv) +:+ (":" +:+ wk) +:+ snd kv.

(** *** JSON texts: the grammar of RFC 8259, numbers without fraction
    and exponent *)

Definition is_ws_char (c : ascii) : bool :=
  (N.eqb (Char.code c) 32 || N.eqb (Char.code c) 9
   || N.eqb (Char.code c) 10 || N.eqb (Char.code c) 13)%bool.

Inductive ws : string -> Prop :=
| ws_nil : ws EmptyString
| ws_cons c s : is_ws_char c = true -> ws s -> ws (String c s).

(** A character that stands for itself inside a string. *)
Definition unescaped (c : ascii) : bool :=
  (N.leb 32 (Char.code c) && negb (Ascii.eqb c dquote)
   && negb (Ascii.eqb c backslash))%bool.

(** A character that may follow a backslash. *)
Definition escapable (c : ascii) : bool :=
  Patterns.one_of (String dquote (String backslash "/bfnrt")) c.

Definition is_hex (c : ascii) : bool :=
  (Char.isdigit c || Char.between 97 102 c || Char.between 65 70 c)%bool.

Inductive chars : string -> Prop :=
| chars_nil : chars EmptyString
| chars_plain c s : unescaped c = true -> chars s -> chars (String c s)
| chars_escape c s :
    escapable c = true -> chars s -> chars (String backslash (String c s))
| chars_unicode h1 h2 h3 h4 s :
    is_hex h1 = true -> is_hex h2 = true -> is_hex h3 = true ->
    is_hex h4 = true -> chars s ->
    chars (String backslash
             (String "u" (String h1 (String h2 (String h3 (String h4 s)))))).

Inductive digits : string -> Prop :=
| digits_nil : digits EmptyString
| digits_cons c s : Char.isdigit c = true -> digits s -> digits (String c s).

Inductive int : string -> Prop :=
| int_zero : int "0"
| int_pos c s :
    Char.between 49 57 c = true -> digits s -> int (String c s).

Inductive quoted : string -> Prop :=
| quoted_intro s :
    chars s -> quoted (String dquote (s +:+ String dquote EmptyString)).

Inductive value : string -> Prop :=
| value_null : value "null"
| value_true : value "true"
| value_false : value "false"
| value_int s : int s -> value s
| value_minus s : int s -> value (String "-" s)
| value_string s : quoted s -> value s
| value_array_empty w : ws w -> value ("[" +:+ w +:+ "]")
| value_array s : values s -> value ("[" +:+ s +:+ "]")
| value_object_empty w : ws w -> value ("{" +:+ w +:+ "}")
| value_object s : members s -> value ("{" +:+ s +:+ "}")
with values : string -> Prop :=
| values_one w1 v w2 : ws w1 -> value v -> ws w2 -> values (w1 +:+ v +:+ w2)
| values_more w1 v w2 s :
    ws w1 -> value v -> ws w2 -> values s ->
    values (w1 +:+ v +:+ w2 +:+ "," +:+ s)
with members : string -> Prop :=
| members_one w1 k w2 w3 v w4 :
    ws w1 -> quoted k -> ws w2 -> ws w3 -> value v -> ws w4 ->
    members (w1 +:+ k +:+ w2 +:+ ":" +:+ w3 +:+ v +:+ w4)
| members_more w1 k w2 w3 v w4 s :
    ws w1 -> quoted k -> ws w2 -> ws w3 -> value v -> ws w4 -> members s ->
    members (w1 +:+ k +:+ w2 +:+ ":" +:+ w3 +:+ v +:+ w4 +:+ "," +:+ s).

(** A JSON text: a value between white space. *)
Definition valid_json (s : string) : Prop :=
  exists w1 v w2, ws w1 /\ value v /\ ws w2 /\ s = w1 +:+ v +:+ w2.

End Json.

(** ** What is written on standard output *)

Import Json.

Definition json_strings (xs : list string) : json := JArr (map JStr xs).

Definition optional_key (k : string) (o : option (list string))
    : list (string * json) :=
  match o with Some xs => [(k, json_strings xs)] | None => [] end.

Definition json_of_item (it : element_data) : json :=
  JObj ([("item_number", JInt (item_number it));
         ("text_content", JStr (text_content it));
         ("text_lines", json_strings (text_lines it));
         ("html_classes", json_strings (html_classes it));
         ("extraction_timestamp", JStr (extraction_timestamp it));
         ("content_length", JInt (content_length it))]
        ++ optional_key "detected_numbers" (detected_numbers it)
        ++ optional_key "detected_amounts" (detected_amounts it)
        ++ optional_key "detected_dates" (detected_dates it)
        ++ [("content_type", JStr (content_type it))]).

Definition json_of_result (r : result) : json :=
  JObj [("extraction_date", JStr (extraction_date r));
        ("source_url", JStr (source_url r));
        ("selector", JStr (selector r));
        ("success", JBool (success r));
        ("error", match error r with Some e => JStr e | None => JNull end);
        ("items", JArr (map json_of_item (items r)));
        ("raw_count", JInt (raw_count r));
        ("environment", JStr (environment r))].

(** [error_result] of [main] (lines 185-190) *)
Definition error_result (e : string) : json :=
  JObj [("success", JBool false);
        ("error", JStr (msg_critical e));
        ("items", JArr []);
        ("environment", JStr "render.com")].

(** ** [main] *)

Record outcome : Type := mkOutcome {
  stdout : list string;      (* the lines written on standard output *)
  exit_code : nat            (* the status the process ends with *)
}.

(** The standard streams of the process, beyond [stdout_print].
    Standard error replaces what it cannot encode, so a write to it fails
    for what the stream is, not for what is written: it is taken to fail
    for the whole run or not at all.  [scrape_lonab] is called only after
    the two writes of lines 173-174 went through, and its model takes its
    own writes to standard error (lines 49, 155, 165) to go through as
    well; a standard error that breaks in the middle of a run is outside
    the model. *)
Record streams : Type := mkStreams {
  (** [print(..., file=sys.stderr)]: [None] when standard error takes the
      line, [Some m] when the write raises an exception [e] with
      [str(e) = m] *)
  stderr_fault : option string;
  (** the flush of the standard streams fails when the interpreter ends *)
  flush_fault : bool
}.

(** Lines 184-192, entered with [str(e) = m]: the handler prints
    [error_result] and exits with 1; if that print raises too, the
    exception is not caught and the interpreter ends with status 1,
    nothing written. *)
Definition handler (w : world) (m : string) : outcome :=
  let text' := dumps_default (error_result m) in
  match stdout_print w text' with
  | None => mkOutcome [text'] 1
  | Some _ => mkOutcome [] 1
  end.

(** The end of the interpreter: when the flush of the standard streams
    fails, what [print] had left in the buffer is lost and the status is
    120, whatever [sys.exit] was given. *)
Definition at_exit (io : streams) (o : outcome) : outcome :=
  if flush_fault io then mkOutcome [] 120 else o.

(** Lines 171-192.  The two prints to standard error of lines 173-174
    come first, inside the [try]: when they raise, the handler runs and
    [scrape_lonab] is never called.  Otherwise the report is printed and
    the status follows its success flag ([SystemExit] is no [Exception]
    and passes the handler); if printing the report raises, the handler
    runs. *)
Definition main (w : world) (io : streams) : outcome :=
  at_exit io
    match stderr_fault io with
    | Some m => handler w m
    | None =>
        let (r, _) := scrape_lonab w state0 in
        let text := dumps_compact (json_of_result r) in
        match stdout_print w text with
        | None => mkOutcome [text] (if success r then 0 else 1)
        | Some e => handler w e
        end
    end.

(** ** The cascade in the words of the specification

    An ordered list of strategies; the first one that yields an element
    wins, and the later ones are not evaluated. *)

Inductive strategy : Type :=
| Primary
| Alternative (alt_selector : string)
| KeywordFallback.

Definition strategies : list strategy :=
  Primary :: map Alternative alternative_selectors ++ [KeywordFallback].

Definition strategy_elements (soup : BeautifulSoup) (s : strategy) : list Tag :=
  match s with
  | Primary => select soup primary_selector
  | Alternative a => select soup a
  | KeywordFallback => List.filter keyword_div (find_all_div soup)
  end.

Definition strategy_query (s : strategy) : query :=
  match s with
  | Primary => Select primary_selector
  | Alternative a => Select a
  | KeywordFallback => FindAll "div"
  end.

Definition strategy_name (s : strategy) : string :=
  match s with
  | Primary => primary_selector
  | Alternative a => a
  | KeywordFallback => fallback_selector
  end.

(** The strategies evaluated, in order, and the elements of the last one
    when it is the first to yield any. *)
Fixpoint first_match (soup : BeautifulSoup) (ss : list strategy)
    : list strategy * list Tag :=
  match ss with
  | [] => ([], [])
  | s :: ss' =>
      if nonempty (strategy_elements soup s) then ([s], strategy_elements soup s)
      else let (tried, els) := first_match soup ss' in (s :: tried, els)
  end.

(** The candidate elements of a page: what [find_elements] hands to the
    extractor. *)
Definition candidates (soup : BeautifulSoup) : list Tag :=
  fst (fst (find_elements soup (initial_result EmptyString) state0)).

(** ** The extractor as a list computation

    [enumerate(els, i)], the pairs whose element is long enough, and the
    items made of them, the n-th, (n+1)-th, ... clock readings stamped on. *)

Fixpoint enumerate {A} (i : nat) (l : list A) : list (nat * A) :=
  match l with
  | [] => []
  | x :: l' => (i, x) :: enumerate (S i) l'
  end.

Definition kept (i : nat) (els : list Tag) : list (nat * Tag) :=
  List.filter (fun p => negb (too_short (snd p))) (enumerate i els).

Fixpoint stamp (w : world) (n : nat) (ps : list (nat * Tag)) : list element_data :=
  match ps with
  | [] => []
  | p :: ps' => make_item (fst p) (snd p) (clock w n) :: stamp w (S n) ps'
  end.

(** [w in text], as a proposition *)
Definition substring (w text : string) : Prop :=
  exists pre post, text = pre +:+ w +:+ post.

Definition mentions (words : list string) (text : string) : Prop :=
  exists w, In w words /\ substring w text.

(** ** The report along the cascade *)

Definition last_name (tried : list strategy) (default : string) : string :=
  List.last (map strategy_name tried) default.

(** The selector the report names: untouched when the primary selector
    matched, the name of the last strategy tried otherwise. *)
Definition chosen_selector (tried : list strategy) (r : result) : string :=
  match tried with
  | [Primary] => selector r
  | _ => last_name tried (selector r)
  end.

(** The strategies actually evaluated on a page. *)
Definition tried (soup : BeautifulSoup) : list strategy :=
  fst (first_match soup strategies).

(** The report as the cascade leaves it. *)
Definition located (soup : BeautifulSoup) (r : result) : result :=
  set_raw_count (length (candidates soup))
    (set_selector (chosen_selector (tried soup) r) r).

(** The report as it is created (lines 19-28), stamped with the first
    clock reading. *)
Definition report0 (w : world) : result := initial_result (clock w 0).

(** The report [scrape_lonab] returns in a world. *)
Definition the_report (w : world) : result := fst (scrape_lonab w state0).

(** A run on which the standard streams work: standard error takes its
    lines, printing the report succeeds, and so does the final flush. *)
Definition streams_work (w : world) (io : streams) : Prop :=
  stderr_fault io = None /\
  stdout_print w (dumps_compact (json_of_result (the_report w))) = None /\
  flush_fault io = false.

(** The fields every report is said to have. *)
Definition report_keys : list string :=
  ["success"; "error"; "items"; "raw_count"; "selector"; "environment"].

(** ** Example pages and worlds *)

(** A page whose [div]s are [els], matched by one selector and by no
    other. *)
Definition page_of (sel : string) (els : list Tag) : BeautifulSoup :=
  mkSoup (fun x => if String.eqb x sel then els else []) els.

Definition empty_page : BeautifulSoup := mkSoup (fun _ => []) [].

(** A world whose fetch yields the page and whose output never fails. *)
Definition world_of (soup : BeautifulSoup) : world :=
  mkWorld (fun _ => "2024-01-01T00:00:00") (Page soup) (fun _ => None).

Definition text_tirage : string :=
  "Tirage National" +:+ Str.NL +:+ "12-34-56-78" +:+ Str.NL +:+ "5000 FCFA".

Definition tag_tirage : Tag := mkTag [text_tirage] None.

Definition page_tirage : BeautifulSoup := page_of primary_selector [tag_tirage].

Definition tag_dates : Tag :=
  mkTag ["Tirages du 01/02/2024 et du 01/02/2024"] None.

Definition page_dates : BeautifulSoup := page_of primary_selector [tag_dates].

Definition amount_across_lines : string := "78" +:+ Str.NL +:+ "5000".

(** A standard output that takes ASCII only: printing any other character
    raises, as [print] does under an ASCII locale. *)
Fixpoint is_ascii_text (s : string) : bool :=
  match s with
  | EmptyString => true
  | String c s' => (N.ltb (Char.code c) 128 && is_ascii_text s')%bool
  end.

Definition ascii_stdout (text : string) : option string :=
  if is_ascii_text text then None
  else Some "'ascii' codec can't encode characters: ordinal not in range(128)".

(** The site does not answer in time, and the output takes ASCII only. *)
Definition world_timeout_ascii : world :=
  mkWorld (fun _ => "2024-01-01T00:00:00")
          (Raise (mkExn ReadTimeout "Read timed out. (read timeout=15)"))
          ascii_stdout.

Definition world_timeout : world :=
  mkWorld (fun _ => "2024-01-01T00:00:00")
          (Raise (mkExn ReadTimeout "Read timed out. (read timeout=15)"))
          (fun _ => None).

(** Standard streams without a fault. *)
Definition sound_streams : streams := mkStreams None false.

(** Standard streams whose final flush fails, as when standard output
    is a full device. *)
Definition streams_full : streams := mkStreams None true.

(** The site sends its headers in time and then stalls: the 15 seconds
    run out while the body is read. *)
Definition world_body_timeout : world :=
  mkWorld (fun _ => "2024-01-01T00:00:00")
          (Raise (mkExn (timeout_class ReadingBody) "Read timed out."))
          (fun _ => None).

(** Two candidates, both too short to be kept. *)
Definition page_short : BeautifulSoup :=
  page_of primary_selector [mkTag ["court"] None; mkTag ["   "] None].

(** Three candidates, the second too short. *)
Definition page_gap : BeautifulSoup :=
  page_of ".results div"
    [mkTag ["Tirage du lundi"] None; mkTag ["bref"] None;
     mkTag ["Prochaine annonce"] (Some ["info"])].

(** ** Notions for the further properties *)

(** [c in s] for one character *)
Fixpoint occurs (c : ascii) (s : string) : bool :=
  match s with
  | EmptyString => false
  | String x s' => (Ascii.eqb x c || occurs c s')%bool
  end.

(** [all(f(c) for c in s)] *)
Fixpoint all_chars (f : ascii -> bool) (s : string) : bool :=
  match s with
  | EmptyString => true
  | String x s' => (f x && all_chars f s')%bool
  end.

(** No character below U+0020: none of the control characters NUL to US,
    so no line feed, no carriage return and no tab.  DEL and the
    characters from U+0080 on are not excluded. *)
Definition c0_free (s : string) : bool :=
  all_chars (fun c => N.leb 32 (Char.code c)) s.

Definition is_suffix (t s : string) : Prop := exists pre, s = pre +:+ t.

(** The matcher's position lies in the subject [subj], and so does the
    text of the group once it has closed. *)
Definition inside (subj : string) (p : Re.pos) : Prop :=
  is_suffix (Re.rest p) subj /\
  forall g, Re.grp p = Some g -> substring g subj.

(** The characters a pattern can consume: those one of its literals or
    classes accepts. *)
Fixpoint may (icase : bool) (r : Re.regex) (c : ascii) : bool :=
  match r with
  | Re.Lit x => Re.lit_ok icase x c
  | Re.Class f => f c
  | Re.Seq r1 r2 | Re.Alt r1 r2 => (may icase r1 c || may icase r2 c)%bool
  | Re.Rep r' _ _ | Re.Group r' | Re.NoGroup r' => may icase r' c
  | Re.WordB => false
  end.

(** The characters the group of a pattern can consume. *)
Fixpoint group_may (icase : bool) (r : Re.regex) (c : ascii) : bool :=
  match r with
  | Re.Group r' => may icase r' c
  | Re.Seq r1 r2 | Re.Alt r1 r2 =>
      (group_may icase r1 c || group_may icase r2 c)%bool
  | Re.Rep r' _ _ | Re.NoGroup r' => group_may icase r' c
  | _ => false
  end.

(** The characters of what [findall] reports. *)
Definition report_may (icase : bool) (r : Re.regex) (c : ascii) : bool :=
  if Re.has_group r then group_may icase r c else may icase r c.

(** From [p] the matcher has moved to [q] over characters that [f]
    accepts. *)
Definition moved (f : ascii -> bool) (p q : Re.pos) : Prop :=
  exists mid, Re.rest p = mid +:+ Re.rest q /\ all_chars f mid = true.

(** The group at [q] is the one at [p], or a text of characters that
    [g] accepts. *)
Definition grouped (g : ascii -> bool) (p q : Re.pos) : Prop :=
  forall t, Re.grp q = Some t -> Re.grp p = Some t \/ all_chars g t = true.

(** The characters of a detected number, amount and date. *)
Definition number_char (c : ascii) : bool :=
  (Char.isdigit c || Char.isspace c || Patterns.one_of "-/" c)%bool.

Definition amount_char (c : ascii) : bool :=
  (Char.isdigit c || Char.isspace c || Patterns.one_of ",." c)%bool.

Definition date_char (c : ascii) : bool :=
  (Char.isdigit c || Patterns.one_of "/-" c)%bool.

(** A page no selector matches; two of its three [div]s speak of the
    draw. *)
Definition page_keywords : BeautifulSoup :=
  mkSoup (fun _ => [])
    [mkTag ["Les NUMEROS gagnants du jour"] None;
     mkTag ["Contact"] None;
     mkTag ["Gros lot: "; "5 000 FCFA"] (Some ["lot"])].

(** Reading back what [Json.escape] wrote: the character an escape
    stands for, and the text of a string body. *)
Definition escaped_char (c : ascii) : ascii :=
  if Ascii.eqb c "b" then ascii_of_N 8
  else if Ascii.eqb c "f" then ascii_of_N 12
  else if Ascii.eqb c "n" then ascii_of_N 10
  else if Ascii.eqb c "r" then ascii_of_N 13
  else if Ascii.eqb c "t" then ascii_of_N 9
  else c.

Definition hex_value (c : ascii) : N :=
  if N.leb 97 (Char.code c) then (Char.code c - 87)%N else (Char.code c - 48)%N.

Fixpoint unescape (s : string) : string :=
  match s with
  | EmptyString => EmptyString
  | String c rest =>
      if Ascii.eqb c Json.backslash then
        match rest with
        | String x rest' =>
            if Ascii.eqb x "u" then
              match rest' with
              | String _ (String _ (String h1 (String h2 rest''))) =>
                  String (ascii_of_N (16 * hex_value h1 + hex_value h2))
                         (unescape rest'')
              | _ => EmptyString
              end
            else String (escaped_char x) (unescape rest')
        | EmptyString => EmptyString
        end
      else String c (unescape rest)
  end.

(** Fifteen candidates, all long enough. *)
Definition page_fifteen : BeautifulSoup :=
  page_of primary_selector (repeat tag_tirage 15).

(** The state [scrape_lonab] ends in: clock readings and page queries. *)
Definition final_state (w : world) : state := snd (scrape_lonab w state0).

(** * Properties *)

(** ** The matcher: fuel and progress *)

Module ReFacts.
Import Re.

(** The continuation is used extensionally. *)
Lemma rep_ext {A} (step : pos -> (pos -> option A) -> option A) :
  (forall p k k', (forall q, k q = k' q) -> step p k = step p k') ->
  forall fuel lo hi p k k',
    (forall q, k q = k' q) -> rep step fuel lo hi p k = rep step fuel lo hi p k'.
Proof.
  intros Hstep. induction fuel as [|fuel IH]; intros lo hi p k k' Hk.
  - simpl. rewrite Hk. reflexivity.
  - cbn [rep]. rewrite (Hk p).
    assert (Hmore : step p (fun q =>
                if Nat.ltb (String.length (rest q)) (String.length (rest p))
                then rep step fuel (Nat.pred lo) (option_map Nat.pred hi) q k
                else None)
            = step p (fun q =>
                if Nat.ltb (String.length (rest q)) (String.length (rest p))
                then rep step fuel (Nat.pred lo) (option_map Nat.pred hi) q k'
                else None)).
    { apply Hstep. intros q.
      destruct (Nat.ltb _ _); [apply IH; exact Hk | reflexivity]. }
    rewrite Hmore. reflexivity.
Qed.

Lemma exec_ext icase {A} r : forall p (k k' : pos -> option A),
  (forall q, k q = k' q) -> exec icase r p k = exec icase r p k'.
Proof.
  induction r as [c | f | r1 IH1 r2 IH2 | r1 IH1 r2 IH2 | r IH lo hi | r IH | r IH |];
    intros p k k' Hk; cbn [exec].
  - destruct (rest p); [reflexivity|]. destruct (lit_ok icase c a); auto.
  - destruct (rest p); [reflexivity|]. destruct (f a); auto.
  - apply IH1. intros q. apply IH2. exact Hk.
  - rewrite (IH1 p k k' Hk), (IH2 p k k' Hk). reflexivity.
  - apply rep_ext; [exact IH | exact Hk].
  - apply IH. intros q. apply Hk.
  - apply IH. exact Hk.
  - destruct (at_boundary p); auto.
Qed.

(** Fuel beyond the length of what is left changes nothing. *)
Lemma rep_fuel {A} (step : pos -> (pos -> option A) -> option A) :
  (forall p k k', (forall q, k q = k' q) -> step p k = step p k') ->
  forall fuel fuel' lo hi p k,
    String.length (rest p) < fuel -> String.length (rest p) < fuel' ->
    rep step fuel lo hi p k = rep step fuel' lo hi p k.
Proof.
  intros Hstep. induction fuel as [|fuel IH]; intros fuel' lo hi p k H1 H2; [lia|].
  destruct fuel' as [|fuel']; [lia|]. cbn [rep].
  assert (Hmore : step p (fun q =>
              if Nat.ltb (String.length (rest q)) (String.length (rest p))
              then rep step fuel (Nat.pred lo) (option_map Nat.pred hi) q k
              else None)
          = step p (fun q =>
              if Nat.ltb (String.length (rest q)) (String.length (rest p))
              then rep step fuel' (Nat.pred lo) (option_map Nat.pred hi) q k
              else None)).
  { apply Hstep. intros q.
    destruct (Nat.ltb_spec (String.length (rest q)) (String.length (rest p)));
      [apply IH; lia | reflexivity]. }
  rewrite Hmore. reflexivity.
Qed.

(** A match never ends before the place it started at. *)
Lemma rep_le {A} (step : pos -> (pos -> option A) -> option A) :
  (forall p k a, step p k = Some a ->
     exists q, String.length (rest q) <= String.length (rest p) /\ k q = Some a) ->
  forall fuel lo hi p k a,
    rep step fuel lo hi p k = Some a ->
    exists q, String.length (rest q) <= String.length (rest p) /\ k q = Some a.
Proof.
  intros Hstep. induction fuel as [|fuel IH]; intros lo hi p k a H.
  - simpl in H. destruct lo; [|discriminate]. exists p. auto.
  - cbn [rep] in H.
    assert (Hstop : match lo with 0 => k p | S _ => None end = Some a ->
                    exists q, String.length (rest q) <= String.length (rest p)
                              /\ k q = Some a).
    { destruct lo; [|discriminate]. intros Hk. exists p. auto. }
    destruct hi as [[|n]|].
    + apply Hstop. exact H.
    + match type of H with
      | match ?m with _ => _ end = _ => destruct m as [a'|] eqn:Hm
      end; [|apply Hstop; exact H].
      inversion H; subst a'. apply Hstep in Hm.
      destruct Hm as (q & Hq & Hk).
      destruct (Nat.ltb_spec (String.length (rest q)) (String.length (rest p)));
        [|discriminate].
      apply IH in Hk. destruct Hk as (q' & Hq' & Hk'). exists q'. split; [lia|auto].
    + match type of H with
      | match ?m with _ => _ end = _ => destruct m as [a'|] eqn:Hm
      end; [|apply Hstop; exact H].
      inversion H; subst a'. apply Hstep in Hm.
      destruct Hm as (q & Hq & Hk).
      destruct (Nat.ltb_spec (String.length (rest q)) (String.length (rest p)));
        [|discriminate].
      apply IH in Hk. destruct Hk as (q' & Hq' & Hk'). exists q'. split; [lia|auto].
Qed.

Lemma exec_le icase {A} r : forall p (k : pos -> option A) a,
  exec icase r p k = Some a ->
  exists q, String.length (rest q) <= String.length (rest p) /\ k q = Some a.
Proof.
  induction r as [c | f | r1 IH1 r2 IH2 | r1 IH1 r2 IH2 | r IH lo hi | r IH | r IH |];
    intros p k a H; cbn [exec] in H.
  - destruct (rest p) as [|x s'] eqn:Hp; [discriminate|].
    destruct (lit_ok icase c x); [|discriminate].
    eexists. split; [|exact H]. simpl. lia.
  - destruct (rest p) as [|x s'] eqn:Hp; [discriminate|].
    destruct (f x); [|discriminate].
    eexists. split; [|exact H]. simpl. lia.
  - apply IH1 in H. destruct H as (q & Hq & H).
    apply IH2 in H. destruct H as (q' & Hq' & H). exists q'. split; [lia|auto].
  - destruct (exec icase r1 p k) as [a'|] eqn:H1.
    + inversion H; subst a'. apply IH1 in H1. exact H1.
    + apply IH2 in H. exact H.
  - apply rep_le in H; [exact H | exact IH].
  - apply IH in H. destruct H as (q & Hq & H).
    eexists. split; [|exact H]. simpl. exact Hq.
  - apply IH in H. exact H.
  - destruct (at_boundary p); [|discriminate]. exists p. auto.
Qed.

Lemma match_at_le icase r p q :
  match_at icase r p = Some q ->
  String.length (rest q) <= String.length (rest p).
Proof.
  unfold match_at. intros H. apply exec_le in H.
  destruct H as (q' & Hq' & H). inversion H; subst. exact Hq'.
Qed.

Lemma step_over_lt p p' :
  step_over p = Some p' -> String.length (rest p') < String.length (rest p).
Proof.
  unfold step_over. destruct (rest p) as [|c s'] eqn:Hp; [discriminate|].
  intros H. inversion H; subst. simpl. lia.
Qed.

(** The scan of [findall] has fuel enough: any more gives the same list. *)
Lemma scan_fuel icase r : forall fuel fuel' p,
  String.length (rest p) < fuel -> String.length (rest p) < fuel' ->
  scan icase r fuel p = scan icase r fuel' p.
Proof.
  induction fuel as [|fuel IH]; intros fuel' p H1 H2; [lia|].
  destruct fuel' as [|fuel']; [lia|]. cbn [scan].
  assert (Hover : match step_over p with
                  | Some p' => scan icase r fuel p'
                  | None => []
                  end
                = match step_over p with
                  | Some p' => scan icase r fuel' p'
                  | None => []
                  end).
  { destruct (step_over p) as [p'|] eqn:Hs; [|reflexivity].
    apply step_over_lt in Hs. apply IH; lia. }
  destruct (match_at icase r p) as [q|] eqn:Hm; [|exact Hover].
  destruct (Nat.ltb_spec (String.length (rest q)) (String.length (rest p))).
  - f_equal. apply IH; simpl; lia.
  - f_equal. exact Hover.
Qed.

(** So is the repetition of [exec]. *)
Lemma exec_rep_fuel icase {A} r lo hi p (k : pos -> option A) n :
  exec icase (Rep r lo hi) p k
  = rep (exec icase r) (S (String.length (rest p)) + n) lo hi p k.
Proof. cbn [exec]. apply rep_fuel; [apply exec_ext | lia | lia]. Qed.

Lemma findall_fuel icase r s n :
  findall icase r s = scan icase r (S (String.length s) + n) (mkPos None s None).
Proof. unfold findall. apply scan_fuel; simpl; lia. Qed.

End ReFacts.

(** ** The cascade *)

Lemma nonempty_false {A} (l : list A) : nonempty l = false -> l = [].
Proof. destruct l; [reflexivity | discriminate]. Qed.

Lemma nonempty_true {A} (l : list A) : nonempty l = true <-> l <> [].
Proof. destruct l; simpl; split; congruence. Qed.

Lemma first_match_nothing_tried soup ss :
  fst (first_match soup ss) = [] -> snd (first_match soup ss) = [].
Proof.
  destruct ss as [|s0 ss]; simpl; [reflexivity|].
  destruct (nonempty (strategy_elements soup s0)); [discriminate|].
  destruct (first_match soup ss); discriminate.
Qed.

(** The loop over the alternatives is the walk of the specification over
    the same selectors. *)
Lemma try_alternatives_first_match soup alts r st :
  try_alternatives soup alts [] r st =
  (let (tried, els) := first_match soup (map Alternative alts) in
   ((els, if nonempty els
          then set_raw_count (length els) (set_selector (last_name tried (selector r)) r)
          else r),
    mkState (clock_reads st) (queries st ++ map strategy_query tried))).
Proof.
  revert st. induction alts as [|a alts IH]; intros st.
  - simpl. rewrite app_nil_r. destruct st; reflexivity.
  - cbn [try_alternatives map first_match strategy_elements].
    unfold bind, soup_select.
    destruct (nonempty (select soup a)) eqn:Hne.
    + unfold ret. cbn. rewrite Hne. reflexivity.
    + rewrite (nonempty_false _ Hne), IH.
      pose proof (first_match_nothing_tried soup (map Alternative alts)) as Hnil.
      destruct (first_match soup (map Alternative alts)) as [tried els].
      cbn [clock_reads queries map]. rewrite <- app_assoc. cbn [app].
      destruct tried as [|s0 tried].
      * simpl in Hnil. rewrite Hnil by reflexivity. reflexivity.
      * reflexivity.
Qed.

Lemma first_match_app soup l1 l2 :
  first_match soup (l1 ++ l2) =
  (let (t1, e1) := first_match soup l1 in
   if nonempty e1 then (t1, e1)
   else let (t2, e2) := first_match soup l2 in (t1 ++ t2, e2)).
Proof.
  induction l1 as [|s0 l1 IH]; simpl.
  - destruct (first_match soup l2); reflexivity.
  - destruct (nonempty (strategy_elements soup s0)) eqn:Hne.
    + rewrite Hne. reflexivity.
    + rewrite IH. destruct (first_match soup l1) as [t1 e1].
      destruct (nonempty e1); [reflexivity|].
      destruct (first_match soup l2); reflexivity.
Qed.

Lemma last_name_snoc l s0 d : last_name (l ++ [s0]) d = strategy_name s0.
Proof. unfold last_name. rewrite map_app. apply last_last. Qed.

Lemma chosen_selector_fallback t1 r :
  chosen_selector (Primary :: t1 ++ [KeywordFallback]) r = fallback_selector.
Proof.
  unfold chosen_selector.
  change (Primary :: t1 ++ [KeywordFallback])
    with ((Primary :: t1) ++ [KeywordFallback]).
  rewrite last_name_snoc. destruct t1; reflexivity.
Qed.

(** Lines 52-82 are the walk of the specification over [strategies]. *)
Lemma find_elements_first_match soup r st :
  find_elements soup r st =
  (let (tried, els) := first_match soup strategies in
   ((els, set_raw_count (length els) (set_selector (chosen_selector tried r) r)),
    mkState (clock_reads st) (queries st ++ map strategy_query tried))).
Proof.
  unfold find_elements, strategies, bind, soup_select.
  cbn [first_match strategy_elements].
  destruct (nonempty (select soup primary_selector)) eqn:Hp.
  - unfold ret. rewrite Hp. destruct r; reflexivity.
  - rewrite (nonempty_false _ Hp), try_alternatives_first_match, first_match_app.
    pose proof (first_match_nothing_tried soup (map Alternative alternative_selectors)) as Hnil.
    destruct (first_match soup (map Alternative alternative_selectors)) as [t1 e1].
    destruct (nonempty e1) eqn:He1.
    + unfold ret. cbn [clock_reads queries map]. rewrite <- app_assoc.
      destruct t1 as [|s0 t1].
      * simpl in Hnil. rewrite Hnil in He1 by reflexivity. discriminate.
      * destruct r; reflexivity.
    + rewrite (nonempty_false _ He1).
      unfold keyword_search, bind, soup_find_all_div, ret.
      cbn [first_match strategy_elements clock_reads queries app].
      assert (Hq : ((queries st ++ [Select primary_selector])
                      ++ map strategy_query t1) ++ [FindAll "div"]
                   = queries st
                     ++ map strategy_query (Primary :: t1 ++ [KeywordFallback])).
      { cbn [map strategy_query]. rewrite map_app, <- !app_assoc. reflexivity. }
      destruct (nonempty (List.filter keyword_div (find_all_div soup))) eqn:Hk;
        rewrite Hq, chosen_selector_fallback;
        rewrite ?(nonempty_false _ Hk); destruct r; reflexivity.
Qed.

Lemma candidates_first_match soup :
  candidates soup = snd (first_match soup strategies).
Proof.
  unfold candidates. rewrite find_elements_first_match.
  destruct (first_match soup strategies); reflexivity.
Qed.

Lemma find_elements_eq soup r st :
  find_elements soup r st =
  ((candidates soup, located soup r),
   mkState (clock_reads st) (queries st ++ map strategy_query (tried soup))).
Proof.
  rewrite find_elements_first_match. unfold located, tried.
  rewrite candidates_first_match.
  destruct (first_match soup strategies); reflexivity.
Qed.

(** ** The extractor *)

(** The loop of line 89 appends the stamped items of the kept elements. *)
Lemma process_elements_stamp w els : forall i acc st,
  process_elements w i els acc st =
  (acc ++ stamp w (clock_reads st) (kept i els),
   mkState (clock_reads st + length (kept i els)) (queries st)).
Proof.
  induction els as [|el els IH]; intros i acc st.
  - simpl. unfold ret. rewrite app_nil_r, Nat.add_0_r. destruct st; reflexivity.
  - cbn [process_elements]. unfold kept. cbn [enumerate List.filter snd].
    destruct (too_short el) eqn:Hs; cbn [negb].
    + apply IH.
    + unfold bind, datetime_now. rewrite IH. cbn [clock_reads queries].
      cbn [stamp fst snd length]. rewrite <- app_assoc. cbn [app].
      unfold kept. f_equal. f_equal. lia.
Qed.

Lemma kept_length i els : length (kept i els) <= length els.
Proof.
  revert i. induction els as [|el els IH]; intros i; unfold kept; simpl.
  - lia.
  - destruct (too_short el); simpl; specialize (IH (S i)); unfold kept in IH; lia.
Qed.

(** A kept pair is an element with its place in the enumeration, and its
    text is long enough. *)
Lemma kept_In i els j el :
  In (j, el) (kept i els) <->
  exists k, j = i + k /\ nth_error els k = Some el /\ too_short el = false.
Proof.
  revert i. induction els as [|e els IH]; intros i.
  - simpl. split; [tauto|]. intros (k & _ & Hk & _). destruct k; discriminate.
  - unfold kept. cbn [enumerate List.filter snd].
    assert (Hrec : In (j, el) (kept (S i) els) <->
                   exists k, j = i + S k /\ nth_error els k = Some el
                             /\ too_short el = false).
    { rewrite IH. split; intros (k & H1 & H2); exists k; split; auto; lia. }
    unfold kept in Hrec.
    destruct (too_short e) eqn:Hs; cbn [negb].
    + rewrite Hrec. split.
      * intros (k & H1 & H2 & H3). exists (S k). auto.
      * intros ([|k] & H1 & H2 & H3); [|exists k; auto].
        simpl in H2. congruence.
    + cbn [In]. rewrite Hrec. split.
      * intros [Heq | (k & H1 & H2 & H3)].
        -- inversion Heq; subst. exists 0. rewrite Nat.add_0_r. auto.
        -- exists (S k). auto.
      * intros ([|k] & H1 & H2 & H3).
        -- left. simpl in H2. inversion H2; subst. f_equal. lia.
        -- right. exists k. auto.
Qed.

Lemma kept_lower_bound i els :
  Forall (fun p => i <= fst p) (kept i els).
Proof.
  apply List.Forall_forall. intros [j el] Hin.
  apply kept_In in Hin. destruct Hin as (k & -> & _). simpl. lia.
Qed.

(** The ordinals of the kept pairs grow strictly. *)
Lemma kept_sorted i els : StronglySorted lt (map fst (kept i els)).
Proof.
  revert i. induction els as [|e els IH]; intros i; unfold kept.
  - constructor.
  - cbn [enumerate List.filter snd].
    destruct (too_short e); cbn [negb]; [apply IH|].
    cbn [map fst]. constructor; [apply IH|].
    apply List.Forall_forall. intros j Hj. apply in_map_iff in Hj.
    destruct Hj as ([j' el] & <- & Hin).
    pose proof (kept_lower_bound (S i) els) as Hlb.
    rewrite List.Forall_forall in Hlb. specialize (Hlb _ Hin). simpl in *. lia.
Qed.

Lemma stamp_length w n ps : length (stamp w n ps) = length ps.
Proof. revert n. induction ps; intros; simpl; auto. Qed.

Lemma stamp_item_number w n ps :
  map item_number (stamp w n ps) = map fst ps.
Proof. revert n. induction ps; intros; simpl; f_equal; auto. Qed.

Lemma stamp_In w n ps it :
  In it (stamp w n ps) ->
  exists p m, In p ps /\ it = make_item (fst p) (snd p) (clock w m).
Proof.
  revert n. induction ps as [|p ps IH]; intros n; simpl; [tauto|].
  intros [<- | Hin].
  - exists p, n. auto.
  - destruct (IH _ Hin) as (p' & m & Hp & ->). exists p', m. auto.
Qed.

(** An item of the extractor comes from the candidate at the place its
    ordinal names, and that candidate's text is long enough. *)
Lemma stamp_kept_In w n i els it :
  In it (stamp w n (kept i els)) ->
  exists k el m,
    nth_error els k = Some el /\ too_short el = false /\
    it = make_item (i + k) el (clock w m).
Proof.
  intros Hin. apply stamp_In in Hin. destruct Hin as ([j el] & m & Hp & ->).
  apply kept_In in Hp. destruct Hp as (k & -> & Hk & Hs).
  exists k, el, m. auto.
Qed.

Lemma kept_text_long i el t :
  too_short el = false -> 10 <= Str.len (text_content (make_item i el t)).
Proof.
  unfold too_short, make_item. cbn [text_content].
  intros H. apply Nat.ltb_ge in H. exact H.
Qed.

(** ** [scrape_lonab], path by path *)

Lemma scrape_lonab_raise w e :
  fetch w = Raise e ->
  scrape_lonab w state0 = (handle e (report0 w), mkState 1 []).
Proof. intros H. unfold scrape_lonab, bind, datetime_now. cbn. rewrite H. reflexivity. Qed.

Lemma scrape_lonab_none w soup :
  fetch w = Page soup -> candidates soup = [] ->
  scrape_lonab w state0 =
  (set_error (Some msg_no_elements) (located soup (report0 w)),
   mkState 1 (map strategy_query (tried soup))).
Proof.
  intros H Hc. unfold scrape_lonab, bind, datetime_now. cbn [state0 clock_reads queries].
  rewrite H, find_elements_eq, Hc. reflexivity.
Qed.

Lemma scrape_lonab_some w soup :
  fetch w = Page soup -> candidates soup <> [] ->
  scrape_lonab w state0 =
  (set_success true
     (set_items (stamp w 1 (kept 1 (firstn 10 (candidates soup))))
        (located soup (report0 w))),
   mkState (1 + length (kept 1 (firstn 10 (candidates soup))))
           (map strategy_query (tried soup))).
Proof.
  intros H Hc. unfold scrape_lonab, bind, datetime_now. cbn [state0 clock_reads queries].
  rewrite H, find_elements_eq.
  apply nonempty_true in Hc. rewrite Hc.
  rewrite process_elements_stamp. reflexivity.
Qed.

(** The items of the report, whatever the path. *)
Lemma scrape_lonab_items w :
  items (fst (scrape_lonab w state0)) =
  match fetch w with
  | Page soup => stamp w 1 (kept 1 (firstn 10 (candidates soup)))
  | Raise _ => []
  end.
Proof.
  destruct (fetch w) as [soup|e] eqn:H.
  - destruct (candidates soup) as [|c cs] eqn:Hc.
    + rewrite (scrape_lonab_none w soup H Hc). reflexivity.
    + rewrite (scrape_lonab_some w soup H) by (rewrite Hc; discriminate).
      rewrite Hc. reflexivity.
  - rewrite (scrape_lonab_raise w e H). unfold handle.
    destruct (is_Timeout (exn_type e)), (is_ConnectionError (exn_type e)),
      (is_RequestException (exn_type e)); reflexivity.
Qed.

(** Every item of the report is made of one of the first ten candidates,
    carries that candidate's 1-based place, and has a text of ten
    characters at least. *)
Lemma scrape_lonab_item_origin w it :
  In it (items (fst (scrape_lonab w state0))) ->
  exists soup k el m,
    fetch w = Page soup /\ k < 10 /\
    nth_error (candidates soup) k = Some el /\ too_short el = false /\
    it = make_item (S k) el (clock w m).
Proof.
  rewrite scrape_lonab_items. destruct (fetch w) as [soup|e]; [|intros []].
  intros Hin. apply stamp_kept_In in Hin.
  destruct Hin as (k & el & m & Hk & Hs & ->).
  exists soup, k, el, m. split; [reflexivity|].
  assert (Hlt : k < length (firstn 10 (candidates soup)))
    by (apply nth_error_Some; congruence).
  rewrite length_firstn in Hlt.
  split; [lia|]. split; [|auto].
  rewrite nth_error_firstn in Hk.
  destruct (Nat.ltb_spec k 10); [exact Hk | lia].
Qed.

(** The walk of the specification, spelled out: the strategies tried are
    an initial part of the list, all but the last of them yield nothing,
    the elements are those of the last, and the walk stops early only on
    a strategy that yields something. *)
Lemma first_match_walk soup ss :
  ss <> [] ->
  exists pre s0 post,
    ss = pre ++ s0 :: post /\
    Forall (fun x => strategy_elements soup x = []) pre /\
    (strategy_elements soup s0 = [] -> post = []) /\
    first_match soup ss = (pre ++ [s0], strategy_elements soup s0).
Proof.
  induction ss as [|s0 ss IH]; [congruence|]. intros _.
  cbn [first_match].
  destruct (nonempty (strategy_elements soup s0)) eqn:Hne.
  - exists [], s0, ss. repeat split; auto.
    intros He. rewrite He in Hne. discriminate.
  - apply nonempty_false in Hne.
    destruct ss as [|s1 ss].
    + exists [], s0, []. simpl. rewrite Hne. auto.
    + destruct IH as (pre & s2 & post & Hss & Hpre & Hpost & Hfm); [discriminate|].
      exists (s0 :: pre), s2, post. rewrite Hfm, Hss. repeat split; auto.
Qed.

(** C1. For every parsed page the cascade tries the strategies in the
    fixed order (the primary selector, the four alternatives in their
    order, the keyword search), evaluates none after the first that yields
    an element, and returns the elements of that one; when the primary
    selector matches, the only question put to the page is the primary
    selector. *)
Theorem C1_cascade_first_match soup r st :
  (exists pre s0 post,
     strategies = pre ++ s0 :: post /\
     Forall (fun x => strategy_elements soup x = []) pre /\
     (strategy_elements soup s0 = [] -> post = []) /\
     fst (fst (find_elements soup r st)) = strategy_elements soup s0 /\
     queries (snd (find_elements soup r st))
       = queries st ++ map strategy_query (pre ++ [s0]) /\
     raw_count (snd (fst (find_elements soup r st)))
       = length (strategy_elements soup s0)) /\
  (select soup primary_selector <> [] ->
     fst (fst (find_elements soup r st)) = select soup primary_selector /\
     queries (snd (find_elements soup r st))
       = queries st ++ [Select primary_selector] /\
     selector (snd (fst (find_elements soup r st))) = selector r).
Proof.
  split.
  - destruct (first_match_walk soup strategies) as (pre & s0 & post & H1 & H2 & H3 & H4);
      [discriminate|].
    exists pre, s0, post. rewrite find_elements_first_match, H4. cbn.
    repeat split; assumption.
  - intros Hp. apply nonempty_true in Hp.
    rewrite find_elements_first_match. unfold strategies.
    cbn [first_match strategy_elements]. rewrite Hp. cbn.
    repeat split; reflexivity.
Qed.

Lemma C1_witness :
  select page_tirage primary_selector <> [] /\
  queries (snd (find_elements page_tirage (initial_result EmptyString) state0))
    = [Select primary_selector].
Proof.
  split; [discriminate|].
  apply (proj2 (C1_cascade_first_match page_tirage (initial_result EmptyString) state0)).
  discriminate.
Defined.

(** C2. Whatever the candidates, the extractor emits at most ten items,
    all made of the first ten candidates, and every item's joined text has
    ten characters or more; so it is for the items of every report. *)
Theorem C2_at_most_ten_long_items :
  (forall w els st,
     let emitted := fst (process_elements w 1 (firstn 10 els) [] st) in
     length emitted <= 10 /\
     Forall (fun it => 10 <= Str.len (text_content it)) emitted /\
     Forall (fun it => exists k el, k < 10 /\ nth_error els k = Some el /\
                         item_number it = S k /\
                         text_content it
                           = Str.join Str.NL (lines_of (content_of el))) emitted) /\
  (forall w,
     length (items (fst (scrape_lonab w state0))) <= 10 /\
     Forall (fun it => 10 <= Str.len (text_content it))
            (items (fst (scrape_lonab w state0)))).
Proof.
  assert (Hgen : forall w els n,
    length (stamp w n (kept 1 (firstn 10 els))) <= 10 /\
    forall it, In it (stamp w n (kept 1 (firstn 10 els))) ->
      10 <= Str.len (text_content it) /\
      exists k el, k < 10 /\ nth_error els k = Some el /\
        item_number it = S k /\
        text_content it = Str.join Str.NL (lines_of (content_of el))).
  { intros w els n. split.
    - rewrite stamp_length.
      pose proof (kept_length 1 (firstn 10 els)) as H.
      rewrite length_firstn in H. lia.
    - intros it Hin. apply stamp_kept_In in Hin.
      destruct Hin as (k & el & m & Hk & Hs & ->). split.
      + apply kept_text_long. exact Hs.
      + exists k, el.
        assert (Hlt : k < length (firstn 10 els))
          by (apply nth_error_Some; congruence).
        rewrite length_firstn in Hlt.
        rewrite nth_error_firstn in Hk.
        destruct (Nat.ltb_spec k 10); [|lia]. auto. }
  split.
  - intros w els st. cbv zeta. rewrite process_elements_stamp. cbn [fst app].
    destruct (Hgen w els (clock_reads st)) as [Hlen Hall].
    split; [exact Hlen|].
    split; apply List.Forall_forall; intros it Hin; apply Hall; exact Hin.
  - intros w. rewrite scrape_lonab_items.
    destruct (fetch w) as [soup|e].
    + destruct (Hgen w (candidates soup) 1) as [Hlen Hall].
      split; [exact Hlen|].
      apply List.Forall_forall. intros it Hin. apply Hall. exact Hin.
    + simpl. split; [lia | constructor].
Qed.

(** ** The classifier *)

Lemma startswith_prefix p s :
  Str.startswith p s = true <-> exists post, s = p +:+ post.
Proof.
  revert s. induction p as [|a p IH]; intros s; simpl.
  - split; [intros _; exists s; reflexivity | reflexivity].
  - destruct s as [|b s].
    + split; [discriminate | intros [post H]; discriminate].
    + rewrite andb_true_iff, IH. split.
      * intros [Hab [post ->]]. apply Ascii.eqb_eq in Hab. subst.
        exists post. reflexivity.
      * intros [post H]. inversion H; subst. split.
        -- apply Ascii.eqb_refl.
        -- exists post. reflexivity.
Qed.

(** [contains] decides [substring]. *)
Lemma contains_substring w s : Str.contains w s = true <-> substring w s.
Proof.
  split.
  - induction s as [|c s IH].
    + simpl. rewrite orb_false_r. intros H.
      apply startswith_prefix in H. destruct H as [post H].
      exists EmptyString, post. exact H.
    + cbn [Str.contains]. rewrite orb_true_iff. intros [H | H].
      * apply startswith_prefix in H. destruct H as [post H].
        exists EmptyString, post. exact H.
      * destruct (IH H) as (pre & post & ->).
        exists (String c pre), post. reflexivity.
  - intros (pre & post & ->). induction pre as [|c pre IH].
    + change (EmptyString +:+ w +:+ post) with (w +:+ post).
      assert (H : Str.startswith w (w +:+ post) = true)
        by (apply startswith_prefix; exists post; reflexivity).
      revert H. generalize (w +:+ post). intros t H.
      destruct t; cbn [Str.contains]; rewrite H; reflexivity.
    + change (String c pre +:+ w +:+ post) with (String c (pre +:+ w +:+ post)).
      cbn [Str.contains]. rewrite IH. apply orb_true_r.
Qed.

Lemma any_in_mentions words text :
  Str.any_in words text = true <-> mentions words text.
Proof.
  unfold Str.any_in, mentions. rewrite existsb_exists.
  split; intros (w & Hin & H); exists w; split; auto; apply contains_substring; auto.
Qed.

(** C3, as the code has it. The classifier is a total function of the
    text: it answers "resultat" when the lowercased text contains tirage,
    resultat or gagnant; if not, "annonce" when it contains annonce, info
    or prochaine; if not, "unknown". The three tags differ, so every text
    has exactly one, and every item of a report carries the tag of its
    element's text. *)
Theorem C3_classifier_total_ordered :
  (forall content,
     (mentions ["tirage"; "resultat"; "gagnant"] (Str.lower content) ->
        classify content = "resultat") /\
     (~ mentions ["tirage"; "resultat"; "gagnant"] (Str.lower content) ->
      mentions ["annonce"; "info"; "prochaine"] (Str.lower content) ->
        classify content = "annonce") /\
     (~ mentions ["tirage"; "resultat"; "gagnant"] (Str.lower content) ->
      ~ mentions ["annonce"; "info"; "prochaine"] (Str.lower content) ->
        classify content = "unknown")) /\
  ("resultat" <> "annonce" /\ "resultat" <> "unknown" /\ "annonce" <> "unknown") /\
  (forall w it,
     In it (items (fst (scrape_lonab w state0))) ->
     exists soup k el,
       fetch w = Page soup /\ nth_error (candidates soup) k = Some el /\
       item_number it = S k /\ content_type it = classify (content_of el)).
Proof.
  split; [|split].
  - intros content. unfold classify.
    destruct (Str.any_in ["tirage"; "resultat"; "gagnant"] (Str.lower content)) eqn:H1;
    destruct (Str.any_in ["annonce"; "info"; "prochaine"] (Str.lower content)) eqn:H2;
      repeat split; intros; try reflexivity;
      repeat match goal with
      | H : ~ mentions _ _ |- _ =>
          rewrite <- any_in_mentions in H; rewrite ?H1, ?H2 in H;
          try (exfalso; apply H; reflexivity); clear H
      | H : mentions _ _ |- _ =>
          rewrite <- any_in_mentions in H; rewrite ?H1, ?H2 in H;
          try discriminate; clear H
      end.
  - repeat split; discriminate.
  - intros w it Hin. apply scrape_lonab_item_origin in Hin.
    destruct Hin as (soup & k & el & m & Hf & Hk & Hn & Hs & ->).
    exists soup, k, el. auto.
Qed.

Lemma C3_witness :
  mentions ["annonce"; "info"; "prochaine"] (Str.lower "Prochaine date") /\
  classify "Prochaine date" = "annonce".
Proof.
  assert (Hno : ~ mentions ["tirage"; "resultat"; "gagnant"] (Str.lower "Prochaine date")).
  { rewrite <- any_in_mentions. vm_compute. discriminate. }
  assert (Hyes : mentions ["annonce"; "info"; "prochaine"] (Str.lower "Prochaine date")).
  { rewrite <- any_in_mentions. vm_compute. reflexivity. }
  split; [exact Hyes|].
  exact (proj1 (proj2 (proj1 C3_classifier_total_ordered "Prochaine date")) Hno Hyes).
Defined.

(** C3, as the specification words it, fails: a text that contains
    "tirage" is not tagged "result". *)
Lemma C3_counterexample :
  mentions ["tirage"; "resultat"; "gagnant"] (Str.lower "Tirage du jour") /\
  classify "Tirage du jour" <> "result".
Proof.
  split.
  - rewrite <- any_in_mentions. vm_compute. reflexivity.
  - vm_compute. discriminate.
Qed.

(** ** The detectors *)

Lemma list_set_NoDup xs : NoDup (list_set xs).
Proof. unfold list_set. apply NoDup_elements. Qed.

Lemma list_set_In x xs : In x (list_set xs) <-> In x xs.
Proof.
  unfold list_set.
  rewrite <- !list_elem_of_In, elem_of_elements, elem_of_list_to_set.
  reflexivity.
Qed.

Lemma when_nonempty_Some {A} (xs v ys : list A) :
  when_nonempty xs v = Some ys -> ys = v.
Proof. unfold when_nonempty. destruct (nonempty xs); congruence. Qed.

(** C4. In every emitted item the detected numbers and the detected
    amounts hold no value twice, and hold exactly the values the patterns
    matched; the detected dates are the matches of the date pattern in
    the order of the scan, nothing removed, and a date that occurs twice
    in the text is listed twice. *)
Theorem C4_sets_and_ordered_dates :
  (forall w it,
     In it (items (fst (scrape_lonab w state0))) ->
     (forall xs, detected_numbers it = Some xs -> NoDup xs) /\
     (forall xs, detected_amounts it = Some xs -> NoDup xs) /\
     exists soup k el,
       fetch w = Page soup /\ nth_error (candidates soup) k = Some el /\
       item_number it = S k /\
       (forall xs, detected_numbers it = Some xs ->
                   forall x, In x xs <-> In x (find_numbers (content_of el))) /\
       (forall xs, detected_amounts it = Some xs ->
                   forall x, In x xs <-> In x (find_amounts (content_of el))) /\
       (forall ds, detected_dates it = Some ds ->
                   ds = Re.findall false Patterns.date_pattern (content_of el))) /\
  (exists w it,
     In it (items (fst (scrape_lonab w state0))) /\
     detected_dates it = Some ["01/02/2024"; "01/02/2024"]).
Proof.
  split.
  - intros w it Hin. apply scrape_lonab_item_origin in Hin.
    destruct Hin as (soup & k & el & m & Hf & Hk & Hn & Hs & ->).
    cbn [make_item detected_numbers detected_amounts detected_dates item_number].
    split; [|split].
    + intros xs H. apply when_nonempty_Some in H. subst. apply list_set_NoDup.
    + intros xs H. apply when_nonempty_Some in H. subst. apply list_set_NoDup.
    + exists soup, k, el. repeat split; auto.
      * apply when_nonempty_Some in H. subst. apply list_set_In.
      * apply when_nonempty_Some in H. subst. apply list_set_In.
      * apply when_nonempty_Some in H. subst. apply list_set_In.
      * apply when_nonempty_Some in H. subst. apply list_set_In.
      * intros ds H. apply when_nonempty_Some in H. exact H.
  - exists (world_of page_dates).
    eexists. split.
    + rewrite scrape_lonab_items. cbn [fetch world_of].
      left. reflexivity.
    + vm_compute. reflexivity.
Qed.

Lemma C4_witness :
  exists it,
    In it (items (fst (scrape_lonab (world_of page_dates) state0))) /\
    (forall xs, detected_numbers it = Some xs -> NoDup xs).
Proof.
  exists (make_item 1 tag_dates "2024-01-01T00:00:00").
  assert (Hin : In (make_item 1 tag_dates "2024-01-01T00:00:00")
                   (items (fst (scrape_lonab (world_of page_dates) state0)))).
  { rewrite scrape_lonab_items. left. reflexivity. }
  split; [exact Hin|].
  exact (proj1 (proj1 C4_sets_and_ordered_dates _ _ Hin)).
Defined.

(** ** The scenario of the draw *)

Lemma candidates_primary soup :
  select soup primary_selector <> [] ->
  candidates soup = select soup primary_selector.
Proof.
  intros H. apply nonempty_true in H.
  rewrite candidates_first_match. unfold strategies.
  cbn [first_match strategy_elements]. rewrite H. reflexivity.
Qed.

(** On the scenario's text the amount is captured across the line
    break: the class of the money patterns has [\s] in it, which matches
    the line break, so the capture starts at the digits that end the line
    before. On the last line alone the amount is found. *)
Lemma amounts_of_tirage :
  In "5000" (list_set (find_amounts "5000 FCFA")) /\
  list_set (find_amounts text_tirage) = [amount_across_lines; "000"] /\
  ~ In "5000" (list_set (find_amounts text_tirage)).
Proof.
  split; [vm_compute; tauto|].
  assert (Hset : list_set (find_amounts text_tirage)
                 = [amount_across_lines; "000"]) by (vm_compute; reflexivity).
  split; [exact Hset|]. rewrite Hset.
  simpl. intros [H | [H | []]]; [vm_compute in H|]; discriminate.
Qed.

(** C5, as the code has it. When the primary selector matches one
    element whose text is "Tirage National", "12-34-56-78", "5000 FCFA" on
    three lines, the report holds exactly one item, numbered 1 and tagged
    "resultat", and its detected numbers are "12-34-56-78". *)
Theorem C5_tirage_scenario w soup el :
  fetch w = Page soup ->
  select soup primary_selector = [el] ->
  content_of el = text_tirage ->
  exists it,
    items (fst (scrape_lonab w state0)) = [it] /\
    success (fst (scrape_lonab w state0)) = true /\
    item_number it = 1 /\
    content_type it = "resultat" /\
    detected_numbers it = Some ["12-34-56-78"].
Proof.
  intros Hf Hsel Hc.
  assert (Hcand : candidates soup = [el]).
  { rewrite candidates_primary; rewrite Hsel; [reflexivity | discriminate]. }
  assert (Hlong : too_short el = false).
  { unfold too_short. rewrite Hc. vm_compute. reflexivity. }
  exists (make_item 1 el (clock w 1)).
  rewrite (scrape_lonab_some w soup Hf) by (rewrite Hcand; discriminate).
  rewrite Hcand. cbn [fst firstn]. unfold kept.
  cbn [enumerate List.filter snd]. rewrite Hlong.
  cbn [negb stamp fst snd items set_items set_success success].
  unfold make_item.
  cbn [item_number content_type detected_numbers detected_amounts].
  rewrite Hc.
  repeat split.
Qed.

Lemma C5_witness :
  exists it,
    items (fst (scrape_lonab (world_of page_tirage) state0)) = [it] /\
    content_type it = "resultat" /\
    detected_numbers it = Some ["12-34-56-78"].
Proof.
  destruct (C5_tirage_scenario (world_of page_tirage) page_tirage tag_tirage
              eq_refl eq_refl eq_refl)
    as (it & H1 & _ & _ & H2 & H3).
  exists it. auto.
Defined.

(** C5, as the specification words it, fails on that very page: the one
    item is not tagged "result" (the code writes the French word), and
    "5000" is not among its amounts (the capture across the line break
    above). *)
Lemma C5_counterexample :
  select page_tirage primary_selector = [tag_tirage] /\
  content_of tag_tirage = text_tirage /\
  exists it,
    items (fst (scrape_lonab (world_of page_tirage) state0)) = [it] /\
    content_type it <> "result" /\
    exists ys, detected_amounts it = Some ys /\ ~ In "5000" ys.
Proof.
  split; [reflexivity|]. split; [reflexivity|].
  eexists. split; [vm_compute; reflexivity|].
  split; [vm_compute; discriminate|].
  eexists. split; [vm_compute; reflexivity|].
  simpl. intros [H | [H | []]]; discriminate.
Qed.

(** ** [json.dumps] writes JSON *)

Module JsonFacts.
Import Json.

Lemma sapp_nil_r s : s +:+ EmptyString = s.
Proof.
  induction s as [|c s IH]; [reflexivity|].
  change (String c s +:+ EmptyString) with (String c (s +:+ EmptyString)).
  rewrite IH. reflexivity.
Qed.

Lemma sapp_assoc s t u : (s +:+ t) +:+ u = s +:+ t +:+ u.
Proof.
  induction s as [|c s IH]; [reflexivity|].
  change (String c (s +:+ t) +:+ u = String c (s +:+ t +:+ u)).
  change (String c ((s +:+ t) +:+ u) = String c (s +:+ t +:+ u)).
  rewrite IH. reflexivity.
Qed.

(** Induction on JSON values, through the lists they nest. *)
Lemma json_ind (P : json -> Prop) :
  P JNull ->
  (forall b, P (JBool b)) ->
  (forall n, P (JInt n)) ->
  (forall s, P (JStr s)) ->
  (forall vs, Forall P vs -> P (JArr vs)) ->
  (forall kvs, Forall (fun kv => P (snd kv)) kvs -> P (JObj kvs)) ->
  forall v, P v.
Proof.
  intros Hnull Hbool Hint Hstr Harr Hobj.
  fix IH 1. intros [| b | n | s | vs | kvs].
  - exact Hnull.
  - apply Hbool.
  - apply Hint.
  - apply Hstr.
  - apply Harr. induction vs as [|v vs IHvs]; constructor; [apply IH | exact IHvs].
  - apply Hobj. induction kvs as [|kv kvs IHkvs]; constructor;
      [apply IH | exact IHkvs].
Qed.

Ltac chars_step :=
  first [ apply chars_nil
        | apply chars_plain; [reflexivity|]
        | apply chars_escape; [reflexivity|]
        | apply chars_unicode; [reflexivity | reflexivity | reflexivity
                                | reflexivity |] ].

Lemma chars_app a b : chars a -> chars b -> chars (a +:+ b).
Proof.
  intros Ha Hb. induction Ha.
  - exact Hb.
  - change (chars (String c (s +:+ b))). apply chars_plain; assumption.
  - change (chars (String backslash (String c (s +:+ b)))).
    apply chars_escape; assumption.
  - change (chars (String backslash
              (String "u" (String h1 (String h2 (String h3 (String h4 (s +:+ b)))))))).
    apply chars_unicode; assumption.
Qed.

(** Every character is replaced by a legal piece of string body. *)
Lemma chars_escape_char c : chars (escape_char c).
Proof.
  destruct c as [b0 b1 b2 b3 b4 b5 b6 b7].
  destruct b0, b1, b2, b3, b4, b5, b6, b7; vm_compute; repeat chars_step.
Qed.

Lemma chars_escaped s : chars (escape s).
Proof.
  induction s as [|c s IH]; [constructor|].
  cbn [escape]. apply chars_app; [apply chars_escape_char | exact IH].
Qed.

Lemma quoted_encode_string s : quoted (encode_string s).
Proof. unfold encode_string. constructor. apply chars_escaped. Qed.

Lemma digit_char_isdigit k : k < 10 -> Char.isdigit (digit_char k) = true.
Proof. intros H. do 10 (destruct k as [|k]; [reflexivity|]). lia. Qed.

Lemma digit_char_leading k :
  0 < k < 10 -> Char.between 49 57 (digit_char k) = true.
Proof.
  intros H. destruct k as [|k]; [lia|].
  do 9 (destruct k as [|k]; [reflexivity|]). lia.
Qed.

Lemma decimal_aux_int fuel : forall n acc,
  0 < n -> n < fuel -> digits acc -> int (decimal_aux fuel n acc).
Proof.
  induction fuel as [|fuel IH]; intros n acc Hpos Hlt Hacc; [lia|].
  cbn [decimal_aux]. destruct (Nat.ltb_spec n 10) as [Hsmall | Hbig].
  - rewrite Nat.mod_small by exact Hsmall.
    apply int_pos; [apply digit_char_leading; lia | exact Hacc].
  - apply IH.
    + apply Nat.div_str_pos. lia.
    + assert (n / 10 < n) by (apply Nat.div_lt; lia). lia.
    + constructor; [|exact Hacc].
      apply digit_char_isdigit. apply Nat.mod_upper_bound. lia.
Qed.

(** The decimal of a count is a JSON integer, without leading zero. *)
Lemma int_decimal n : int (decimal n).
Proof.
  destruct n as [|n]; [apply int_zero|].
  unfold decimal. apply decimal_aux_int; [lia | lia | constructor].
Qed.

Section Separators.
(** The separators of both calls: a comma, a colon, and white space
    after them. *)
Variables wi wk : string.
Hypothesis ws_wi : ws wi.
Hypothesis ws_wk : ws wk.

Lemma values_join texts :
  texts <> [] -> Forall value texts ->
  forall w, ws w -> values (w +:+ Str.join ("," +:+ wi) texts).
Proof.
  induction texts as [|t texts IH]; [congruence|].
  intros _ Hall w Hw. inversion Hall as [|? ? Ht Hrest]; subst.
  destruct texts as [|t' texts].
  - cbn [Str.join]. rewrite <- (sapp_nil_r t) at 1.
    apply values_one; [exact Hw | exact Ht | constructor].
  - change (Str.join ("," +:+ wi) (t :: t' :: texts))
      with (t +:+ ("," +:+ wi) +:+ Str.join ("," +:+ wi) (t' :: texts)).
    replace (w +:+ t +:+ ("," +:+ wi) +:+ Str.join ("," +:+ wi) (t' :: texts))
      with (w +:+ t +:+ EmptyString +:+ ","
            +:+ (wi +:+ Str.join ("," +:+ wi) (t' :: texts))).
    + apply values_more; [exact Hw | exact Ht | constructor |].
      apply IH; [discriminate | exact Hrest | exact ws_wi].
    + rewrite !sapp_assoc. reflexivity.
Qed.

Lemma members_join (kvs : list (string * string)) :
  kvs <> [] -> Forall (fun kv => value (snd kv)) kvs ->
  forall w, ws w ->
    members (w +:+ Str.join ("," +:+ wi) (map (member_text wk) kvs)).
Proof.
  induction kvs as [|kv kvs IH]; [congruence|].
  intros _ Hall w Hw. inversion Hall as [|? ? Hv Hrest]; subst.
  destruct kvs as [|kv' kvs].
  - cbn [map Str.join]. unfold member_text.
    replace (w +:+ encode_string (fst kv) +:+ (":" +:+ wk) +:+ snd kv)
      with (w +:+ encode_string (fst kv) +:+ EmptyString +:+ ":" +:+ wk
            +:+ snd kv +:+ EmptyString).
    + apply members_one;
        [exact Hw | apply quoted_encode_string | constructor | exact ws_wk
        | exact Hv | constructor].
    + rewrite sapp_nil_r, !sapp_assoc. reflexivity.
  - change (Str.join ("," +:+ wi) (map (member_text wk) (kv :: kv' :: kvs)))
      with (member_text wk kv +:+ ("," +:+ wi)
            +:+ Str.join ("," +:+ wi) (map (member_text wk) (kv' :: kvs))).
    unfold member_text at 1.
    replace (w +:+ (encode_string (fst kv) +:+ (":" +:+ wk) +:+ snd kv)
             +:+ ("," +:+ wi)
             +:+ Str.join ("," +:+ wi) (map (member_text wk) (kv' :: kvs)))
      with (w +:+ encode_string (fst kv) +:+ EmptyString +:+ ":" +:+ wk
            +:+ snd kv +:+ EmptyString +:+ ","
            +:+ (wi +:+ Str.join ("," +:+ wi) (map (member_text wk) (kv' :: kvs)))).
    + apply members_more;
        [exact Hw | apply quoted_encode_string | constructor | exact ws_wk
        | exact Hv | constructor |].
      apply IH; [discriminate | exact Hrest | exact ws_wi].
    + rewrite !sapp_assoc. reflexivity.
Qed.

(** Whatever the value, the text written for it is a JSON value. *)
Lemma value_dumps v : value (dumps ("," +:+ wi) (":" +:+ wk) v).
Proof.
  induction v as [| b | n | s | vs IH | kvs IH] using json_ind.
  - constructor.
  - destruct b; constructor.
  - apply value_int, int_decimal.
  - apply value_string, quoted_encode_string.
  - cbn [dumps]. destruct vs as [|v vs].
    + apply (value_array_empty EmptyString). constructor.
    + apply value_array.
      change (values (EmptyString +:+ Str.join ("," +:+ wi)
                (map (dumps ("," +:+ wi) (":" +:+ wk)) (v :: vs)))).
      apply values_join; [discriminate | | constructor].
      apply Forall_map. exact IH.
  - cbn [dumps]. destruct kvs as [|kv kvs].
    + apply (value_object_empty EmptyString). constructor.
    + apply value_object.
      replace (map (fun kv0 => encode_string (fst kv0) +:+ (":" +:+ wk)
                      +:+ dumps ("," +:+ wi) (":" +:+ wk) (snd kv0)) (kv :: kvs))
        with (map (member_text wk)
                (map (fun kv0 => (fst kv0, dumps ("," +:+ wi) (":" +:+ wk) (snd kv0)))
                     (kv :: kvs)))
        by (rewrite map_map; reflexivity).
      change (members (EmptyString +:+ Str.join ("," +:+ wi)
                (map (member_text wk)
                   (map (fun kv0 => (fst kv0, dumps ("," +:+ wi) (":" +:+ wk) (snd kv0)))
                      (kv :: kvs))))).
      apply members_join; [discriminate | | constructor].
      apply Forall_map. exact IH.
Qed.
End Separators.

Lemma valid_of_value s : value s -> valid_json s.
Proof.
  intros H. exists EmptyString, s, EmptyString.
  split; [constructor|]. split; [exact H|]. split; [constructor|].
  change (s = s +:+ EmptyString). rewrite sapp_nil_r. reflexivity.
Qed.

Lemma valid_dumps_compact v : valid_json (dumps_compact v).
Proof.
  apply valid_of_value.
  exact (value_dumps EmptyString EmptyString ws_nil ws_nil v).
Qed.

Lemma valid_dumps_default v : valid_json (dumps_default v).
Proof.
  apply valid_of_value.
  assert (Hsp : ws " ") by (constructor; [reflexivity | constructor]).
  exact (value_dumps " " " " Hsp Hsp v).
Qed.

End JsonFacts.

(** ** [main], path by path *)

(** On a run whose streams work the report is printed and the status
    follows its success flag. *)
Lemma main_streams_work w io :
  streams_work w io ->
  main w io = mkOutcome [dumps_compact (json_of_result (the_report w))]
                        (if success (the_report w) then 0 else 1).
Proof.
  intros (He & Hp & Hf). unfold main, at_exit. rewrite Hf, He.
  unfold the_report in *.
  destruct (scrape_lonab w state0) as [r st]. cbn [fst] in *.
  rewrite Hp. reflexivity.
Qed.

Lemma handler_cases w m :
  handler w m = mkOutcome [dumps_default (error_result m)] 1 \/
  handler w m = mkOutcome [] 1.
Proof.
  unfold handler.
  destruct (stdout_print w (dumps_default (error_result m))); auto.
Qed.

(** The ways [main] can end: the final flush fails; or the streams work;
    or the handler ran, and printed its report or could not. *)
Lemma main_cases w io :
  (flush_fault io = true /\ main w io = mkOutcome [] 120) \/
  (streams_work w io /\
   main w io = mkOutcome [dumps_compact (json_of_result (the_report w))]
                         (if success (the_report w) then 0 else 1)) \/
  (exists e, main w io = mkOutcome [dumps_default (error_result e)] 1) \/
  main w io = mkOutcome [] 1.
Proof.
  destruct (flush_fault io) eqn:Hf.
  { left. split; [reflexivity|]. unfold main, at_exit. rewrite Hf. reflexivity. }
  right.
  destruct (stderr_fault io) as [m|] eqn:He.
  { right. unfold main, at_exit. rewrite Hf, He.
    destruct (handler_cases w m) as [-> | ->]; eauto. }
  destruct (stdout_print w (dumps_compact (json_of_result (the_report w))))
    as [m|] eqn:Hp.
  - right. unfold main, at_exit. rewrite Hf, He. unfold the_report in Hp.
    destruct (scrape_lonab w state0) as [r st]. cbn [fst] in Hp. rewrite Hp.
    destruct (handler_cases w m) as [-> | ->]; eauto.
  - left. assert (Hw : streams_work w io) by (repeat split; assumption).
    split; [exact Hw | apply main_streams_work; exact Hw].
Qed.

Lemma result_has_report_keys r :
  Forall (fun k => has_field k (json_of_result r) = true) report_keys.
Proof. repeat constructor. Qed.

Lemma filter_nothing {A} (f : A -> bool) l :
  (forall x, In x l -> f x = false) -> List.filter f l = [].
Proof.
  induction l as [|x l IH]; intros H; [reflexivity|].
  simpl. rewrite (H x) by (left; reflexivity).
  apply IH. intros y Hy. apply H. right. exact Hy.
Qed.

Lemma kept_nothing i els :
  (forall el, In el els -> too_short el = true) -> kept i els = [].
Proof.
  revert i. induction els as [|e els IH]; intros i H; [reflexivity|].
  unfold kept. cbn [enumerate List.filter snd].
  rewrite (H e) by (left; reflexivity). cbn [negb].
  apply IH. intros el Hel. apply H. right. exact Hel.
Qed.

(** When no strategy yields an element, all six were tried. *)
Lemma nothing_found soup :
  select soup primary_selector = [] ->
  (forall a, In a alternative_selectors -> select soup a = []) ->
  (forall d, In d (find_all_div soup) -> keyword_div d = false) ->
  first_match soup strategies = (strategies, []).
Proof.
  intros Hp Ha Hk. unfold strategies, alternative_selectors in *.
  cbn [map app first_match strategy_elements].
  rewrite Hp, (filter_nothing _ _ Hk).
  rewrite !Ha by (simpl; auto 10). reflexivity.
Qed.

(** ** The report on every path *)




(** C7, as the code has it. When the 15 seconds run out while
    connecting or while waiting for the response, [requests] raises one of
    its [Timeout] exceptions. When the fetch raises such an exception and
    the standard streams work, the report of [scrape_lonab] has success
    false, the message that begins with "Timeout", and no item; it is
    the report written, and the process ends with status 1. On every run
    whose standard streams work the report of [scrape_lonab] is the one
    written, and the status is 0 exactly when it says success and 1
    exactly when it does not. *)
Theorem C7_timeout_and_exit_status :
  (forall p, p <> ReadingBody -> is_Timeout (timeout_class p) = true) /\
  (forall w io e,
     fetch w = Raise e -> is_Timeout (exn_type e) = true ->
     streams_work w io ->
     success (the_report w) = false /\
     error (the_report w) = Some msg_timeout /\
     substring "Timeout" msg_timeout /\
     items (the_report w) = [] /\
     stdout (main w io) = [dumps_compact (json_of_result (the_report w))] /\
     exit_code (main w io) = 1) /\
  (forall w io,
     streams_work w io ->
     stdout (main w io) = [dumps_compact (json_of_result (the_report w))] /\
     field "success" (json_of_result (the_report w))
       = Some (JBool (success (the_report w))) /\
     (exit_code (main w io) = 0 <-> success (the_report w) = true) /\
     (exit_code (main w io) = 1 <-> success (the_report w) = false)).
Proof.
  split; [|split].
  - intros [| |] Hp; [reflexivity | reflexivity | contradiction].
  - intros w io e Hf Ht Hw.
    assert (Hr : the_report w = set_error (Some msg_timeout) (report0 w)).
    { unfold the_report. rewrite (scrape_lonab_raise w e Hf).
      unfold handle. rewrite Ht. reflexivity. }
    assert (Hs : success (the_report w) = false) by (rewrite Hr; reflexivity).
    split; [exact Hs|]. split; [rewrite Hr; reflexivity|].
    split; [exists EmptyString; eexists; vm_compute; reflexivity|].
    split; [rewrite Hr; reflexivity|].
    rewrite (main_streams_work w io Hw). cbn [stdout exit_code].
    rewrite Hs. split; reflexivity.
  - intros w io Hw. rewrite (main_streams_work w io Hw). cbn [stdout exit_code].
    split; [reflexivity|]. split; [reflexivity|].
    destruct (success (the_report w)); split; split;
      first [reflexivity | discriminate].
Qed.

Lemma C7_witness :
  fetch world_timeout
    = Raise (mkExn ReadTimeout "Read timed out. (read timeout=15)") /\
  streams_work world_timeout sound_streams /\
  error (the_report world_timeout) = Some msg_timeout /\
  stdout (main world_timeout sound_streams)
    = [dumps_compact (json_of_result (the_report world_timeout))] /\
  exit_code (main world_timeout sound_streams) = 1.
Proof.
  assert (Hw : streams_work world_timeout sound_streams)
    by (repeat split; reflexivity).
  split; [reflexivity|]. split; [exact Hw|].
  destruct (proj1 (proj2 C7_timeout_and_exit_status)
              world_timeout sound_streams
              (mkExn ReadTimeout "Read timed out. (read timeout=15)")
              eq_refl eq_refl Hw)
    as (_ & H1 & _ & _ & H2 & H3).
  split; [exact H1|]. split; [exact H2 | exact H3].
Defined.

(** C7, as the specification words it, fails in two ways. When the 15
    seconds run out while the body is read, the streams working, the
    exception that reaches line 159 is a [ConnectionError]: the report
    written carries the connection message, which mentions no timeout.
    And when the final flush of the streams fails, the status is 120,
    which is neither 0 nor 1. *)
Lemma C7_counterexample :
  (fetch world_body_timeout
     = Raise (mkExn (timeout_class ReadingBody) "Read timed out.") /\
   streams_work world_body_timeout sound_streams /\
   stdout (main world_body_timeout sound_streams)
     = [dumps_compact (json_of_result (the_report world_body_timeout))] /\
   error (the_report world_body_timeout) = Some msg_connection /\
   Str.contains "time" (Str.lower msg_connection) = false /\
   Str.contains "temps" (Str.lower msg_connection) = false) /\
  (success (the_report world_timeout) = false /\
   exit_code (main world_timeout streams_full) = 120).
Proof.
  repeat split; vm_compute; reflexivity.
Qed.

(** C8, as the code has it. When the primary selector, every alternative
    selector and the keyword search all yield nothing, [scrape_lonab]
    returns a report with success false, the message "Aucun element
    trouve avec tous les selecteurs" (with its accents), raw_count 0, no
    item, and the keyword search named as selector. *)
Theorem C8_no_elements w soup :
  fetch w = Page soup ->
  select soup primary_selector = [] ->
  (forall a, In a alternative_selectors -> select soup a = []) ->
  (forall d, In d (find_all_div soup) -> keyword_div d = false) ->
  success (the_report w) = false /\
  error (the_report w) = Some msg_no_elements /\
  raw_count (the_report w) = 0 /\
  items (the_report w) = [] /\
  selector (the_report w) = fallback_selector.
Proof.
  intros Hf Hp Ha Hk.
  pose proof (nothing_found soup Hp Ha Hk) as Hfm.
  assert (Hc : candidates soup = []).
  { rewrite candidates_first_match, Hfm. reflexivity. }
  assert (Hr : the_report w
               = set_error (Some msg_no_elements) (located soup (report0 w))).
  { unfold the_report. rewrite (scrape_lonab_none w soup Hf Hc). reflexivity. }
  repeat split.
  - rewrite Hr. reflexivity.
  - rewrite Hr. reflexivity.
  - rewrite Hr. unfold located. rewrite Hc. reflexivity.
  - rewrite Hr. reflexivity.
  - rewrite Hr. unfold located, tried. rewrite Hfm. reflexivity.
Qed.

Lemma C8_witness :
  error (the_report (world_of empty_page)) = Some msg_no_elements /\
  raw_count (the_report (world_of empty_page)) = 0.
Proof.
  destruct (C8_no_elements (world_of empty_page) empty_page eq_refl eq_refl
              (fun a _ => eq_refl) (fun d (H : In d []) => match H with end))
    as (_ & H1 & H2 & _).
  split; assumption.
Defined.

(** C8, as the specification words it, fails: on a page where nothing
    matches, the message is not "no elements found". *)
Lemma C8_counterexample :
  select empty_page primary_selector = [] /\
  find_all_div empty_page = [] /\
  error (the_report (world_of empty_page)) <> Some "no elements found".
Proof.
  split; [reflexivity|]. split; [reflexivity|].
  vm_compute. discriminate.
Qed.

(** ** Success without items, and the numbering of the items *)

(** C9. There is a page on which the primary selector yields elements,
    all of them too short: the report then says success and holds no
    item; the streams working, it is printed as it is, and the process
    ends with status 0. The
    report says success with no item on every page whose first ten
    candidates are all too short. *)
Theorem C9_success_with_no_item :
  (forall w soup,
     fetch w = Page soup -> candidates soup <> [] ->
     (forall el, In el (firstn 10 (candidates soup)) -> too_short el = true) ->
     success (the_report w) = true /\ items (the_report w) = []) /\
  (exists w soup,
     fetch w = Page soup /\
     candidates soup = select soup primary_selector /\
     candidates soup <> [] /\
     (forall el, In el (firstn 10 (candidates soup)) -> too_short el = true) /\
     success (the_report w) = true /\ items (the_report w) = [] /\
     field "items" (json_of_result (the_report w)) = Some (JArr []) /\
     streams_work w sound_streams /\
     stdout (main w sound_streams)
       = [dumps_compact (json_of_result (the_report w))] /\
     exit_code (main w sound_streams) = 0).
Proof.
  split.
  - intros w soup Hf Hc Hshort. unfold the_report.
    rewrite (scrape_lonab_some w soup Hf Hc).
    rewrite (kept_nothing 1 _ Hshort). split; reflexivity.
  - exists (world_of page_short), page_short.
    split; [reflexivity|]. split; [reflexivity|]. split; [discriminate|].
    split.
    + intros el Hin. vm_compute in Hin.
      destruct Hin as [<- | [<- | []]]; vm_compute; reflexivity.
    + repeat split; vm_compute; reflexivity.
Qed.

Lemma C9_witness :
  success (the_report (world_of page_short)) = true /\
  items (the_report (world_of page_short)) = [].
Proof.
  apply (proj1 C9_success_with_no_item (world_of page_short) page_short).
  - reflexivity.
  - discriminate.
  - intros el Hin. vm_compute in Hin.
    destruct Hin as [<- | [<- | []]]; vm_compute; reflexivity.
Defined.

(** C10. Every item's number is the 1-based place of its element among
    the first ten candidates, counted before the short elements are
    dropped; along the items the numbers lie between 1 and 10 and grow
    strictly; and they are not renumbered: when the second of three
    candidates is dropped, the items are numbered 1 and 3. *)
Theorem C10_item_numbers_are_positions :
  (forall w it,
     In it (items (the_report w)) ->
     exists soup k el,
       fetch w = Page soup /\ k < 10 /\
       nth_error (candidates soup) k = Some el /\
       item_number it = S k /\
       text_content it = Str.join Str.NL (lines_of (content_of el))) /\
  (forall w,
     StronglySorted lt (map item_number (items (the_report w))) /\
     Forall (fun n => 1 <= n <= 10) (map item_number (items (the_report w)))) /\
  (exists w,
     raw_count (the_report w) = 3 /\
     map item_number (items (the_report w)) = [1; 3]).
Proof.
  split; [|split].
  - intros w it Hin. apply scrape_lonab_item_origin in Hin.
    destruct Hin as (soup & k & el & m & Hf & Hk & Hn & Hs & ->).
    exists soup, k, el. auto.
  - intros w. split.
    + unfold the_report. rewrite scrape_lonab_items.
      destruct (fetch w) as [soup|e]; [|constructor].
      rewrite stamp_item_number. apply kept_sorted.
    + apply List.Forall_forall. intros n Hn. apply in_map_iff in Hn.
      destruct Hn as (it & <- & Hin). apply scrape_lonab_item_origin in Hin.
      destruct Hin as (soup & k & el & m & Hf & Hk & _ & _ & ->).
      cbn [make_item item_number]. lia.
  - exists (world_of page_gap). split; vm_compute; reflexivity.
Qed.

Lemma C10_witness :
  exists it,
    In it (items (the_report (world_of page_gap))) /\
    exists soup k el,
      fetch (world_of page_gap) = Page soup /\ k < 10 /\
      nth_error (candidates soup) k = Some el /\
      item_number it = S k /\
      text_content it = Str.join Str.NL (lines_of (content_of el)).
Proof.
  exists (make_item 3 (mkTag ["Prochaine annonce"] (Some ["info"]))
                    "2024-01-01T00:00:00").
  assert (Hin : In (make_item 3 (mkTag ["Prochaine annonce"] (Some ["info"]))
                              "2024-01-01T00:00:00")
                   (items (the_report (world_of page_gap)))).
  { unfold the_report. rewrite scrape_lonab_items. right. left. reflexivity. }
  split; [exact Hin|].
  exact (proj1 C10_item_numbers_are_positions _ _ Hin).
Defined.

(** * Further properties of [scrape_lonab] and [main] *)

(** ** The failure paths (lines 157-165) *)

(** X1. When the fetch raises, whatever the exception, the report keeps
    the values it was created with except for the error: success false,
    no item, raw_count 0, the primary selector; the page is asked
    nothing and the clock is read once. The message is chosen by the
    first clause that fits: a timeout of any kind, connect timeouts
    included although they are connection errors too, gets the timeout
    message; other connection errors the connection message; any other
    exception of [requests] the network message with its text; anything
    else the plain message with its text. *)
Theorem X1_exception_report w e :
  fetch w = Raise e ->
  success (the_report w) = false /\
  items (the_report w) = [] /\
  raw_count (the_report w) = 0 /\
  selector (the_report w) = primary_selector /\
  extraction_date (the_report w) = clock w 0 /\
  final_state w = mkState 1 [] /\
  error (the_report w) =
    Some (match exn_type e with
          | ConnectTimeout | ReadTimeout | Timeout => msg_timeout
          | ConnectionError => msg_connection
          | HTTPError | RequestException => msg_network (exn_str e)
          | Exception => msg_other (exn_str e)
          end).
Proof.
  intros Hf. unfold the_report, final_state.
  rewrite (scrape_lonab_raise w e Hf). cbn [fst snd].
  unfold handle. destruct (exn_type e); cbn; repeat split; reflexivity.
Qed.

Lemma X1_witness :
  error (the_report
           (mkWorld (fun _ => EmptyString)
                    (Raise (mkExn ConnectTimeout "connect timed out"))
                    (fun _ => None)))
  = Some msg_timeout.
Proof.
  exact (proj2 (proj2 (proj2 (proj2 (proj2 (proj2
           (X1_exception_report
              (mkWorld (fun _ => EmptyString)
                       (Raise (mkExn ConnectTimeout "connect timed out"))
                       (fun _ => None))
              (mkExn ConnectTimeout "connect timed out") eq_refl))))))).
Defined.

(** X2. In every run the report says success exactly when it carries no
    error: success is set only where no message was, and every failure
    path leaves a message. *)
Theorem X2_success_iff_no_error w :
  success (the_report w) = true <-> error (the_report w) = None.
Proof.
  unfold the_report.
  destruct (fetch w) as [soup|e] eqn:Hf.
  - destruct (candidates soup) as [|c cs] eqn:Hc.
    + rewrite (scrape_lonab_none w soup Hf Hc). cbn. split; discriminate.
    + rewrite (scrape_lonab_some w soup Hf) by (rewrite Hc; discriminate).
      cbn. split; reflexivity.
  - rewrite (scrape_lonab_raise w e Hf). unfold handle.
    destruct (is_Timeout (exn_type e)), (is_ConnectionError (exn_type e)),
      (is_RequestException (exn_type e)); cbn; split; discriminate.
Qed.

(** ** Counting the candidates (lines 53, 68, 81, 89) *)

(** X3. On a fetched page raw_count is the number of all the candidates
    the cascade found, before the cut at ten and before the length test;
    the items are never more than ten nor more than raw_count; and the
    report says success exactly when raw_count is not 0. *)
Theorem X3_raw_count_counts_candidates w soup :
  fetch w = Page soup ->
  raw_count (the_report w) = length (candidates soup) /\
  length (items (the_report w)) <= Nat.min 10 (raw_count (the_report w)) /\
  (success (the_report w) = true <-> raw_count (the_report w) <> 0).
Proof.
  intros Hf. unfold the_report.
  destruct (candidates soup) as [|c cs] eqn:Hc.
  - rewrite (scrape_lonab_none w soup Hf Hc). unfold located. rewrite Hc.
    cbn. repeat split; try lia; try discriminate.
  - rewrite (scrape_lonab_some w soup Hf) by (rewrite Hc; discriminate).
    unfold located. rewrite Hc.
    cbn [fst raw_count set_success set_items set_raw_count items success].
    split; [reflexivity|]. split.
    + rewrite stamp_length.
      pose proof (kept_length 1 (firstn 10 (c :: cs))) as H.
      rewrite length_firstn in H. exact H.
    + split; [intros _; simpl; discriminate | reflexivity].
Qed.

Lemma X3_witness :
  raw_count (the_report (world_of page_fifteen)) = 15 /\
  length (items (the_report (world_of page_fifteen))) <= 10.
Proof.
  destruct (X3_raw_count_counts_candidates (world_of page_fifteen) page_fifteen
              eq_refl) as (H1 & H2 & _).
  split.
  - rewrite H1. reflexivity.
  - apply (Nat.le_trans _ _ _ H2). apply Nat.le_min_l.
Defined.

Lemma kept_everything i els :
  (forall el, In el els -> too_short el = false) -> kept i els = enumerate i els.
Proof.
  revert i. induction els as [|e els IH]; intros i H; [reflexivity|].
  unfold kept. cbn [enumerate List.filter snd].
  rewrite (H e) by (left; reflexivity). cbn [negb]. f_equal.
  apply IH. intros el Hel. apply H. right. exact Hel.
Qed.

Lemma enumerate_length {A} i (l : list A) : length (enumerate i l) = length l.
Proof. revert i. induction l; intros; simpl; auto. Qed.

Lemma enumerate_fst {A} i (l : list A) :
  map fst (enumerate i l) = List.seq i (length l).
Proof. revert i. induction l; intros; simpl; f_equal; auto. Qed.

Lemma enumerate_nth {A} (l : list A) : forall i k,
  nth_error (enumerate i l) k = option_map (pair (i + k)) (nth_error l k).
Proof.
  induction l as [|x l IH]; intros i [|k]; cbn [enumerate nth_error option_map];
    try reflexivity.
  - rewrite Nat.add_0_r. reflexivity.
  - rewrite IH. replace (S i + k) with (i + S k) by lia. reflexivity.
Qed.

Lemma stamp_nth w ps : forall n k,
  nth_error (stamp w n ps) k
  = option_map (fun p => make_item (fst p) (snd p) (clock w (n + k)))
               (nth_error ps k).
Proof.
  induction ps as [|p ps IH]; intros n [|k]; cbn [stamp nth_error option_map];
    try reflexivity.
  - rewrite Nat.add_0_r. reflexivity.
  - rewrite IH. replace (S n + k) with (n + S k) by lia. reflexivity.
Qed.

(** X4. When the page has ten candidates or more and the first ten are
    all long enough, the report holds exactly ten items, numbered 1 to 10
    in the order of the page: the k-th item is made of the k-th
    candidate, and the candidates after the tenth are left out. *)
Theorem X4_ten_items_of_many w soup :
  fetch w = Page soup ->
  10 <= length (candidates soup) ->
  (forall el, In el (firstn 10 (candidates soup)) -> too_short el = false) ->
  length (items (the_report w)) = 10 /\
  map item_number (items (the_report w)) = List.seq 1 10 /\
  (forall k, k < 10 ->
     exists el, nth_error (candidates soup) k = Some el /\
                nth_error (items (the_report w)) k
                  = Some (make_item (S k) el (clock w (S k)))).
Proof.
  intros Hf Hlen Hlong. unfold the_report.
  rewrite scrape_lonab_items, Hf, (kept_everything 1 _ Hlong).
  assert (Hten : length (firstn 10 (candidates soup)) = 10)
    by (rewrite length_firstn; lia).
  split; [|split].
  - rewrite stamp_length, enumerate_length. exact Hten.
  - rewrite stamp_item_number, enumerate_fst, Hten. reflexivity.
  - intros k Hk.
    destruct (nth_error (candidates soup) k) as [el|] eqn:Hnth.
    + exists el. split; [reflexivity|].
      rewrite stamp_nth, enumerate_nth, nth_error_firstn.
      destruct (Nat.ltb_spec k 10); [|lia]. rewrite Hnth. reflexivity.
    + apply nth_error_None in Hnth. lia.
Qed.

Lemma X4_witness :
  length (candidates page_fifteen) = 15 /\
  map item_number (items (the_report (world_of page_fifteen))) = List.seq 1 10.
Proof.
  split; [reflexivity|].
  apply (X4_ten_items_of_many (world_of page_fifteen) page_fifteen).
  - reflexivity.
  - vm_compute. lia.
  - intros el Hin.
    assert (Hel : el = tag_tirage).
    { apply (repeat_spec 10 tag_tirage el). exact Hin. }
    rewrite Hel. vm_compute. reflexivity.
Defined.

(** ** The selector named in the report (lines 22, 67, 82) *)

Lemma chosen_selector_last pre s0 r :
  selector r = primary_selector ->
  (pre = [] -> s0 = Primary) ->
  chosen_selector (pre ++ [s0]) r = strategy_name s0.
Proof.
  intros Hr Hp. unfold chosen_selector.
  destruct pre as [|p0 pre].
  - rewrite (Hp eq_refl). exact Hr.
  - rewrite last_name_snoc.
    destruct p0, pre; reflexivity.
Qed.

(** X5. On a fetched page the selector field names the strategy whose
    elements became the candidates: the primary selector, or the first
    alternative selector that matched, or "fallback_keyword_search" when
    the keyword search was reached, whether it found something or not. *)
Theorem X5_selector_names_the_strategy w soup :
  fetch w = Page soup ->
  exists pre s0 post,
    strategies = pre ++ s0 :: post /\
    Forall (fun x => strategy_elements soup x = []) pre /\
    (strategy_elements soup s0 = [] -> s0 = KeywordFallback) /\
    candidates soup = strategy_elements soup s0 /\
    selector (the_report w) = strategy_name s0.
Proof.
  intros Hf.
  destruct (first_match_walk soup strategies) as (pre & s0 & post & H1 & H2 & H3 & H4);
    [discriminate|].
  exists pre, s0, post.
  assert (Hc : candidates soup = strategy_elements soup s0).
  { rewrite candidates_first_match, H4. reflexivity. }
  assert (Hsel : selector (located soup (report0 w)) = strategy_name s0).
  { unfold located, tried. rewrite H4.
    cbn [fst selector set_raw_count set_selector].
    apply chosen_selector_last; [reflexivity|].
    intros ->. simpl in H1. unfold strategies in H1. inversion H1. reflexivity. }
  split; [exact H1|]. split; [exact H2|]. split; [|split; [exact Hc|]].
  - intros He. specialize (H3 He). subst post.
    unfold strategies in H1. cbn in H1.
    assert (Hlast : List.last (pre ++ [s0]) Primary = KeywordFallback)
      by (rewrite <- H1; reflexivity).
    rewrite last_last in Hlast. exact Hlast.
  - unfold the_report. destruct (candidates soup) as [|c cs] eqn:Hcs.
    + rewrite (scrape_lonab_none w soup Hf Hcs). exact Hsel.
    + rewrite (scrape_lonab_some w soup Hf) by (rewrite Hcs; discriminate).
      exact Hsel.
Qed.

Lemma X5_witness :
  selector (the_report (world_of page_gap)) = ".results div".
Proof.
  destruct (X5_selector_names_the_strategy (world_of page_gap) page_gap eq_refl)
    as (pre & s0 & post & _ & _ & _ & _ & H).
  rewrite H. vm_compute in H. exact (eq_sym H).
Defined.

(** ** The text of an item (lines 90-102) *)

Module StrFacts.

Lemma length_app a b :
  String.length (a +:+ b) = String.length a + String.length b.
Proof.
  induction a as [|c a IH]; [reflexivity|].
  change (String c a +:+ b) with (String c (a +:+ b)). simpl. rewrite IH. reflexivity.
Qed.

Lemma lstrip_head s c t : Str.lstrip s = String c t -> Char.isspace c = false.
Proof.
  induction s as [|x s IH]; simpl; [discriminate|].
  destruct (Char.isspace x) eqn:Hx; [exact IH|].
  intros H. inversion H; subst. exact Hx.
Qed.

Lemma rstrip_cons c s :
  Str.rstrip (String c s) =
  if Str.is_empty (Str.rstrip s)
  then (if Char.isspace c then EmptyString else String c EmptyString)
  else String c (Str.rstrip s).
Proof. cbn [Str.rstrip]. destruct (Str.rstrip s); reflexivity. Qed.

Lemma rstrip_keeps_head c s :
  Char.isspace c = false -> Str.rstrip (String c s) = String c (Str.rstrip s).
Proof.
  intros Hc. rewrite rstrip_cons, Hc. destruct (Str.rstrip s); reflexivity.
Qed.

Lemma rstrip_idem s : Str.rstrip (Str.rstrip s) = Str.rstrip s.
Proof.
  induction s as [|c s IH]; [reflexivity|].
  rewrite rstrip_cons. destruct (Str.rstrip s) as [|x r] eqn:Hr; cbn [Str.is_empty].
  - destruct (Char.isspace c) eqn:Hc; [reflexivity|].
    rewrite rstrip_cons. cbn. rewrite Hc. reflexivity.
  - rewrite rstrip_cons, IH. reflexivity.
Qed.

(** Stripping twice is stripping once. *)
Lemma strip_idem s : Str.strip (Str.strip s) = Str.strip s.
Proof.
  unfold Str.strip. destruct (Str.lstrip s) as [|c t] eqn:Hl; [reflexivity|].
  pose proof (lstrip_head _ _ _ Hl) as Hc.
  rewrite (rstrip_keeps_head c t Hc). cbn [Str.lstrip]. rewrite Hc.
  rewrite <- (rstrip_keeps_head c t Hc). apply rstrip_idem.
Qed.

Lemma length_lstrip s : String.length (Str.lstrip s) <= String.length s.
Proof.
  induction s as [|c s IH]; simpl; [lia|].
  destruct (Char.isspace c); simpl; lia.
Qed.

Lemma length_rstrip s : String.length (Str.rstrip s) <= String.length s.
Proof.
  induction s as [|c s IH]; [simpl; lia|].
  rewrite rstrip_cons. destruct (Str.is_empty (Str.rstrip s)).
  - destruct (Char.isspace c); simpl; lia.
  - simpl. lia.
Qed.

Lemma length_strip s : String.length (Str.strip s) <= String.length s.
Proof.
  unfold Str.strip. pose proof (length_rstrip (Str.lstrip s)).
  pose proof (length_lstrip s). lia.
Qed.

Lemma occurs_lstrip c s : occurs c (Str.lstrip s) = true -> occurs c s = true.
Proof.
  induction s as [|x s IH]; simpl; [discriminate|].
  destruct (Char.isspace x); [|exact (fun H => H)].
  intros H. rewrite (IH H). apply orb_true_r.
Qed.

Lemma occurs_rstrip c s : occurs c (Str.rstrip s) = true -> occurs c s = true.
Proof.
  induction s as [|x s IH]; [discriminate|].
  rewrite rstrip_cons. cbn [occurs].
  destruct (Str.is_empty (Str.rstrip s)).
  - destruct (Char.isspace x); [discriminate|].
    cbn [occurs]. rewrite orb_false_r. intros ->. reflexivity.
  - cbn [occurs]. rewrite !orb_true_iff. intros [H | H]; auto.
Qed.

(** A character of the stripped text is a character of the text. *)
Lemma occurs_strip c s : occurs c (Str.strip s) = true -> occurs c s = true.
Proof. unfold Str.strip. intros H. apply occurs_lstrip, occurs_rstrip, H. Qed.

Lemma absent_strip c s : occurs c s = false -> occurs c (Str.strip s) = false.
Proof.
  intros H. destruct (occurs c (Str.strip s)) eqn:Ho; [|reflexivity].
  apply occurs_strip in Ho. congruence.
Qed.

Lemma split_cons sep c s :
  Str.split sep (String c s) =
  if Ascii.eqb c sep then EmptyString :: Str.split sep s
  else match Str.split sep s with
       | [] => [String c EmptyString]
       | p :: ps => String c p :: ps
       end.
Proof. reflexivity. Qed.

Lemma split_not_nil sep s : Str.split sep s <> [].
Proof.
  induction s as [|c s IH]; [discriminate|].
  rewrite split_cons. destruct (Ascii.eqb c sep); [discriminate|].
  destruct (Str.split sep s); discriminate.
Qed.

(** No piece of a split holds the separator. *)
Lemma split_pieces sep s :
  Forall (fun p => occurs sep p = false) (Str.split sep s).
Proof.
  induction s as [|c s IH]; [repeat constructor|].
  rewrite split_cons. destruct (Ascii.eqb c sep) eqn:Hc.
  - constructor; [reflexivity | exact IH].
  - destruct (Str.split sep s) as [|p ps]; [repeat constructor; simpl; rewrite Hc; reflexivity|].
    inversion IH; subst. constructor; [|assumption].
    simpl. rewrite Hc. assumption.
Qed.

Lemma split_whole sep l : occurs sep l = false -> Str.split sep l = [l].
Proof.
  induction l as [|c l IH]; [reflexivity|].
  cbn [occurs]. rewrite orb_false_iff. intros [Hc Hl].
  rewrite split_cons, Hc, (IH Hl). reflexivity.
Qed.

Lemma split_app sep l rest :
  occurs sep l = false ->
  Str.split sep (l +:+ String sep rest) = l :: Str.split sep rest.
Proof.
  induction l as [|c l IH].
  - intros _. change (EmptyString +:+ String sep rest) with (String sep rest).
    rewrite split_cons, Ascii.eqb_refl. reflexivity.
  - cbn [occurs]. rewrite orb_false_iff. intros [Hc Hl].
    change (String c l +:+ String sep rest) with (String c (l +:+ String sep rest)).
    rewrite split_cons, Hc, (IH Hl). reflexivity.
Qed.

(** Joining pieces that hold no separator and splitting again gives the
    pieces back. *)
Lemma split_join sep ls :
  ls <> [] -> Forall (fun p => occurs sep p = false) ls ->
  Str.split sep (Str.join (String sep EmptyString) ls) = ls.
Proof.
  induction ls as [|l ls IH]; [congruence|]. intros _ Hall.
  inversion Hall as [|? ? Hl Hrest]; subst.
  destruct ls as [|l' ls].
  - cbn [Str.join]. apply split_whole. exact Hl.
  - change (Str.join (String sep EmptyString) (l :: l' :: ls))
      with (l +:+ String sep EmptyString +:+ Str.join (String sep EmptyString) (l' :: ls)).
    change (String sep EmptyString +:+ Str.join (String sep EmptyString) (l' :: ls))
      with (String sep (Str.join (String sep EmptyString) (l' :: ls))).
    rewrite (split_app sep l _ Hl), IH; [reflexivity | discriminate | exact Hrest].
Qed.

(** Splitting and joining again gives the text back. *)
Lemma join_split sep s :
  Str.join (String sep EmptyString) (Str.split sep s) = s.
Proof.
  induction s as [|c s IH]; [reflexivity|].
  rewrite split_cons. pose proof (split_not_nil sep s) as Hne.
  destruct (Ascii.eqb c sep) eqn:Hc.
  - apply Ascii.eqb_eq in Hc. subst c.
    destruct (Str.split sep s) as [|p ps]; [congruence|].
    change (Str.join (String sep EmptyString) (EmptyString :: p :: ps))
      with (String sep (Str.join (String sep EmptyString) (p :: ps))).
    rewrite IH. reflexivity.
  - destruct (Str.split sep s) as [|p ps]; [congruence|].
    rewrite <- IH. destruct ps; reflexivity.
Qed.

Lemma length_join_cons sep p ps :
  String.length (Str.join sep (p :: ps)) =
  String.length p +
  match ps with
  | [] => 0
  | _ => String.length sep + String.length (Str.join sep ps)
  end.
Proof.
  destruct ps as [|q ps]; [simpl; lia|].
  change (Str.join sep (p :: q :: ps)) with (p +:+ sep +:+ Str.join sep (q :: ps)).
  rewrite !length_app. reflexivity.
Qed.

(** Stripping the pieces and dropping the empty ones does not lengthen
    the joined text. *)
Lemma length_join_stripped sep ls :
  String.length
    (Str.join sep
       (map Str.strip
          (List.filter (fun l => negb (Str.is_empty (Str.strip l))) ls)))
  <= String.length (Str.join sep ls).
Proof.
  induction ls as [|p ps IH]; [simpl; lia|].
  rewrite (length_join_cons sep p ps). cbn [List.filter].
  set (R := map Str.strip
              (List.filter (fun l => negb (Str.is_empty (Str.strip l))) ps)) in *.
  assert (Hnil : ps = [] -> R = []) by (intros ->; reflexivity).
  destruct (negb (Str.is_empty (Str.strip p))).
  - cbn [map]. fold R. rewrite (length_join_cons sep (Str.strip p) R).
    pose proof (length_strip p).
    destruct R as [|r R']; [lia|].
    destruct ps as [|q ps']; [specialize (Hnil eq_refl); discriminate|]. lia.
  - fold R. destruct ps as [|q ps'].
    + rewrite (Hnil eq_refl). simpl. lia.
    + lia.
Qed.

End StrFacts.

(** The lines of a text are not empty, carry no white space at either
    end and hold no line break. *)
Lemma lines_of_normal content :
  Forall (fun l => l <> EmptyString /\ Str.strip l = l /\ occurs Str.nl l = false)
         (lines_of content).
Proof.
  unfold lines_of. apply List.Forall_forall. intros l Hin.
  apply in_map_iff in Hin. destruct Hin as (raw & <- & Hraw).
  apply filter_In in Hraw. destruct Hraw as [Hsplit Hne].
  split; [|split].
  - destruct (Str.strip raw); [discriminate Hne | discriminate].
  - apply StrFacts.strip_idem.
  - apply StrFacts.absent_strip.
    pose proof (StrFacts.split_pieces Str.nl content) as Hp.
    rewrite List.Forall_forall in Hp. apply Hp. exact Hsplit.
Qed.

(** X6. In every emitted item the lines are in normal form: there is at
    least one, none is empty, none begins or ends with white space, none
    holds a line break. So the text and the lines carry each other:
    text_content is the lines joined by line breaks, splitting
    text_content at the line breaks gives text_lines back, and
    normalising text_content again changes nothing. *)
Theorem X6_lines_normal_form w it :
  In it (items (the_report w)) ->
  text_lines it <> [] /\
  Forall (fun l => l <> EmptyString /\ Str.strip l = l /\ occurs Str.nl l = false)
         (text_lines it) /\
  text_content it = Str.join Str.NL (text_lines it) /\
  Str.split Str.nl (text_content it) = text_lines it /\
  lines_of (text_content it) = text_lines it.
Proof.
  intros Hin. apply scrape_lonab_item_origin in Hin.
  destruct Hin as (soup & k & el & m & Hf & Hk & Hn & Hs & ->).
  cbn [make_item text_lines text_content].
  pose proof (lines_of_normal (content_of el)) as Hnorm.
  assert (Hne : lines_of (content_of el) <> []).
  { intros He. unfold too_short in Hs. rewrite He in Hs. discriminate. }
  assert (Hsplit : Str.split Str.nl (Str.join Str.NL (lines_of (content_of el)))
                   = lines_of (content_of el)).
  { apply StrFacts.split_join; [exact Hne|].
    eapply List.Forall_impl; [|exact Hnorm]. intros l (_ & _ & H). exact H. }
  split; [exact Hne|]. split; [exact Hnorm|]. split; [reflexivity|].
  split; [exact Hsplit|].
  unfold lines_of at 1. rewrite Hsplit.
  revert Hnorm. generalize (lines_of (content_of el)). intros ls Hnorm.
  induction Hnorm as [|l ls (Hl & Hstrip & _) _ IH]; [reflexivity|].
  cbn [List.filter]. rewrite Hstrip.
  destruct l; [congruence|]. cbn [Str.is_empty negb map].
  rewrite Hstrip, IH. reflexivity.
Qed.

Lemma X6_witness :
  exists it,
    In it (items (the_report (world_of page_tirage))) /\
    Str.split Str.nl (text_content it) = text_lines it.
Proof.
  exists (make_item 1 tag_tirage "2024-01-01T00:00:00").
  assert (Hin : In (make_item 1 tag_tirage "2024-01-01T00:00:00")
                   (items (the_report (world_of page_tirage)))).
  { unfold the_report. rewrite scrape_lonab_items. left. reflexivity. }
  split; [exact Hin|].
  exact (proj1 (proj2 (proj2 (proj2 (X6_lines_normal_form _ _ Hin))))).
Defined.

(** X7. In every emitted item content_length is the length of the
    element's text as extracted, before the lines are cleaned; the text
    kept in text_content is never longer, so that
    10 <= len(text_content) <= content_length. *)
Theorem X7_content_length_bounds w it :
  In it (items (the_report w)) ->
  10 <= Str.len (text_content it) /\
  Str.len (text_content it) <= content_length it /\
  exists soup k el,
    fetch w = Page soup /\ nth_error (candidates soup) k = Some el /\
    item_number it = S k /\
    content_length it = Str.len (get_text_stripped Str.NL el).
Proof.
  intros Hin. apply scrape_lonab_item_origin in Hin.
  destruct Hin as (soup & k & el & m & Hf & Hk & Hn & Hs & ->).
  split; [apply kept_text_long; exact Hs|]. split.
  - cbn [make_item text_content content_length]. unfold lines_of, Str.len.
    etransitivity; [apply StrFacts.length_join_stripped|].
    change Str.NL with (String Str.nl EmptyString).
    rewrite StrFacts.join_split. apply Nat.le_refl.
  - exists soup, k, el. auto.
Qed.

Lemma X7_witness :
  exists it,
    In it (items (the_report (world_of page_tirage))) /\
    Str.len (text_content it) <= content_length it.
Proof.
  exists (make_item 1 tag_tirage "2024-01-01T00:00:00").
  assert (Hin : In (make_item 1 tag_tirage "2024-01-01T00:00:00")
                   (items (the_report (world_of page_tirage)))).
  { unfold the_report. rewrite scrape_lonab_items. left. reflexivity. }
  split; [exact Hin|].
  exact (proj1 (proj2 (X7_content_length_bounds _ _ Hin))).
Defined.

(** ** The detector keys (lines 120, 135, 140) *)

Lemma list_set_not_nil xs : xs <> [] -> list_set xs <> [].
Proof.
  destruct xs as [|x xs]; [congruence|]. intros _ He.
  assert (Hin : In x (list_set (x :: xs))) by (apply list_set_In; left; reflexivity).
  rewrite He in Hin. destruct Hin.
Qed.

Lemma when_nonempty_None {A} (xs v : list A) :
  when_nonempty xs v = None <-> xs = [].
Proof. unfold when_nonempty. destruct xs; simpl; split; congruence. Qed.

(** X8. In every emitted item a detector key is present exactly when its
    patterns matched somewhere in the element's text, and a key that is
    present never holds an empty list; in the JSON object of the item the
    key is there exactly when the item has it. *)
Theorem X8_detector_keys_present_iff_matched w it :
  In it (items (the_report w)) ->
  (exists soup k el,
     fetch w = Page soup /\ nth_error (candidates soup) k = Some el /\
     item_number it = S k /\
     (detected_numbers it = None <-> find_numbers (content_of el) = []) /\
     (detected_amounts it = None <-> find_amounts (content_of el) = []) /\
     (detected_dates it = None <-> find_dates (content_of el) = [])) /\
  detected_numbers it <> Some [] /\
  detected_amounts it <> Some [] /\
  detected_dates it <> Some [] /\
  (has_field "detected_numbers" (json_of_item it) = true
     <-> detected_numbers it <> None) /\
  (has_field "detected_amounts" (json_of_item it) = true
     <-> detected_amounts it <> None) /\
  (has_field "detected_dates" (json_of_item it) = true
     <-> detected_dates it <> None).
Proof.
  intros Hin. split; [|split; [|split; [|split]]].
  - apply scrape_lonab_item_origin in Hin.
    destruct Hin as (soup & k & el & m & Hf & Hk & Hn & Hs & ->).
    exists soup, k, el. cbn [make_item detected_numbers detected_amounts detected_dates].
    repeat split; try assumption; try reflexivity;
      try (apply when_nonempty_None); try (apply when_nonempty_None; assumption).
  - apply scrape_lonab_item_origin in Hin.
    destruct Hin as (soup & k & el & m & Hf & Hk & Hn & Hs & ->).
    cbn [make_item detected_numbers]. unfold when_nonempty.
    destruct (find_numbers (content_of el)) eqn:He; [discriminate|].
    cbn [nonempty]. intros H. inversion H as [H'].
    apply (list_set_not_nil (s :: l)); [discriminate | exact H'].
  - apply scrape_lonab_item_origin in Hin.
    destruct Hin as (soup & k & el & m & Hf & Hk & Hn & Hs & ->).
    cbn [make_item detected_amounts]. unfold when_nonempty.
    destruct (find_amounts (content_of el)) eqn:He; [discriminate|].
    cbn [nonempty]. intros H. inversion H as [H'].
    apply (list_set_not_nil (s :: l)); [discriminate | exact H'].
  - apply scrape_lonab_item_origin in Hin.
    destruct Hin as (soup & k & el & m & Hf & Hk & Hn & Hs & ->).
    cbn [make_item detected_dates]. unfold when_nonempty.
    destruct (find_dates (content_of el)) eqn:He; discriminate.
  - unfold json_of_item, has_field, field.
    destruct (detected_numbers it), (detected_amounts it), (detected_dates it);
      cbn; repeat split; intros; congruence.
Qed.

Lemma X8_witness :
  exists it,
    In it (items (the_report (world_of page_gap))) /\
    detected_numbers it <> Some [] /\
    has_field "detected_numbers" (json_of_item it) = false.
Proof.
  exists (make_item 3 (mkTag ["Prochaine annonce"] (Some ["info"]))
                    "2024-01-01T00:00:00").
  assert (Hin : In (make_item 3 (mkTag ["Prochaine annonce"] (Some ["info"]))
                              "2024-01-01T00:00:00")
                   (items (the_report (world_of page_gap)))).
  { unfold the_report. rewrite scrape_lonab_items. right. left. reflexivity. }
  split; [exact Hin|]. split.
  - exact (proj1 (proj2 (X8_detector_keys_present_iff_matched _ _ Hin))).
  - reflexivity.
Defined.

(** ** The clock (lines 20, 101) *)

(** X9. The clock is read once when the report is created and once more
    for each emitted item, at the moment the item is built: the report's
    extraction_date is the first reading, the item at place k (from 0)
    carries reading k+1, and an element that is skipped costs no
    reading. *)
Theorem X9_timestamps_follow_the_clock w :
  extraction_date (the_report w) = clock w 0 /\
  clock_reads (final_state w) = 1 + length (items (the_report w)) /\
  (forall k it,
     nth_error (items (the_report w)) k = Some it ->
     extraction_timestamp it = clock w (S k)).
Proof.
  unfold the_report, final_state.
  destruct (fetch w) as [soup|e] eqn:Hf.
  - destruct (candidates soup) as [|c cs] eqn:Hc.
    + rewrite (scrape_lonab_none w soup Hf Hc). cbn.
      repeat split. intros [|k] it H; discriminate.
    + rewrite (scrape_lonab_some w soup Hf) by (rewrite Hc; discriminate).
      cbn [fst snd clock_reads extraction_date items set_success set_items
           located set_raw_count set_selector report0 initial_result].
      split; [reflexivity|]. split; [rewrite stamp_length; reflexivity|].
      intros k it H. rewrite stamp_nth in H.
      destruct (nth_error (kept 1 (firstn 10 (candidates soup))) k) as [p|];
        cbn [option_map] in H; [|discriminate].
      inversion H. reflexivity.
  - rewrite (scrape_lonab_raise w e Hf). unfold handle.
    destruct (is_Timeout (exn_type e)), (is_ConnectionError (exn_type e)),
      (is_RequestException (exn_type e)); cbn; repeat split;
      intros [|k] it H; discriminate.
Qed.

Lemma X9_witness :
  exists it,
    nth_error (items (the_report (world_of page_gap))) 1 = Some it /\
    item_number it = 3 /\
    extraction_timestamp it = clock (world_of page_gap) 2.
Proof.
  exists (make_item 3 (mkTag ["Prochaine annonce"] (Some ["info"]))
                    "2024-01-01T00:00:00").
  assert (Hnth : nth_error (items (the_report (world_of page_gap))) 1
                 = Some (make_item 3 (mkTag ["Prochaine annonce"] (Some ["info"]))
                                   "2024-01-01T00:00:00")).
  { unfold the_report. rewrite scrape_lonab_items. reflexivity. }
  split; [exact Hnth|]. split; [reflexivity|].
  exact (proj2 (proj2 (X9_timestamps_follow_the_clock (world_of page_gap))) _ _ Hnth).
Defined.

(** ** The classifier and the case of the text (lines 144-150) *)

Lemma char_lower_idem c : Char.lower (Char.lower c) = Char.lower c.
Proof.
  destruct c as [b0 b1 b2 b3 b4 b5 b6 b7].
  destruct b0, b1, b2, b3, b4, b5, b6, b7; vm_compute; reflexivity.
Qed.

Lemma lower_idem s : Str.lower (Str.lower s) = Str.lower s.
Proof.
  induction s as [|c s IH]; [reflexivity|].
  cbn [Str.lower]. rewrite char_lower_idem, IH. reflexivity.
Qed.

Lemma lower_app a b : Str.lower (a +:+ b) = Str.lower a +:+ Str.lower b.
Proof.
  induction a as [|c a IH]; [reflexivity|].
  change (String c a +:+ b) with (String c (a +:+ b)). cbn [Str.lower].
  rewrite IH. reflexivity.
Qed.

Lemma substring_inside w a pre post :
  substring w a -> substring w (pre +:+ a +:+ post).
Proof.
  intros (p & q & ->). exists (pre +:+ p), (q +:+ post).
  rewrite !JsonFacts.sapp_assoc. reflexivity.
Qed.

Lemma classify_resultat content :
  classify content = "resultat" <->
  mentions ["tirage"; "resultat"; "gagnant"] (Str.lower content).
Proof.
  rewrite <- any_in_mentions. unfold classify.
  destruct (Str.any_in ["tirage"; "resultat"; "gagnant"] (Str.lower content)).
  - split; reflexivity.
  - destruct (Str.any_in ["annonce"; "info"; "prochaine"] (Str.lower content));
      split; discriminate.
Qed.

(** X10. The classifier does not look at the case of the letters: a
    text and its lower-case form get the same tag. And the tag
    "resultat" is never lost to what stands around: if a text is tagged
    "resultat", so is every text that contains it, whatever comes before
    and after. *)
Theorem X10_classifier_case_and_context :
  (forall content, classify (Str.lower content) = classify content) /\
  (forall pre content post,
     classify content = "resultat" ->
     classify (pre +:+ content +:+ post) = "resultat").
Proof.
  split.
  - intros content. unfold classify. rewrite lower_idem. reflexivity.
  - intros pre content post H. apply classify_resultat in H.
    apply classify_resultat. rewrite !lower_app.
    destruct H as (w & Hw & Hsub). exists w. split; [exact Hw|].
    apply substring_inside. exact Hsub.
Qed.

Lemma X10_witness :
  classify "GAGNANT" = "resultat" /\
  classify ("Prochaine annonce: le " +:+ "GAGNANT" +:+ " du jour") = "resultat".
Proof.
  assert (H : classify "GAGNANT" = "resultat") by reflexivity.
  split; [exact H|].
  exact (proj2 X10_classifier_case_and_context
           "Prochaine annonce: le " "GAGNANT" " du jour" H).
Defined.

(** ** One line on standard output (lines 180, 191) *)

Module LineFacts.
Import Json.

Lemma all_chars_app f a b :
  all_chars f (a +:+ b) = (all_chars f a && all_chars f b)%bool.
Proof.
  induction a as [|c a IH]; [reflexivity|].
  change (String c a +:+ b) with (String c (a +:+ b)).
  cbn [all_chars]. rewrite IH, andb_assoc. reflexivity.
Qed.

Lemma c0_free_app a b :
  c0_free a = true -> c0_free b = true -> c0_free (a +:+ b) = true.
Proof.
  unfold c0_free. intros Ha Hb. rewrite all_chars_app, Ha, Hb. reflexivity.
Qed.

(** What replaces a character holds no control character. *)
Lemma c0_free_escape_char c : c0_free (escape_char c) = true.
Proof.
  destruct c as [b0 b1 b2 b3 b4 b5 b6 b7].
  destruct b0, b1, b2, b3, b4, b5, b6, b7; vm_compute; reflexivity.
Qed.

Lemma c0_free_escape s : c0_free (escape s) = true.
Proof.
  induction s as [|c s IH]; [reflexivity|].
  cbn [escape]. apply c0_free_app; [apply c0_free_escape_char | exact IH].
Qed.

Lemma c0_free_encode_string s : c0_free (encode_string s) = true.
Proof.
  unfold encode_string.
  change (c0_free (String dquote EmptyString
                     +:+ (escape s +:+ String dquote EmptyString)) = true).
  apply c0_free_app; [reflexivity|].
  apply c0_free_app; [apply c0_free_escape | reflexivity].
Qed.

Lemma c0_free_digit_char k : k < 10 -> c0_free (String (digit_char k) EmptyString) = true.
Proof. intros H. do 10 (destruct k as [|k]; [reflexivity|]). lia. Qed.

Lemma c0_free_decimal_aux fuel : forall n acc,
  c0_free acc = true -> c0_free (decimal_aux fuel n acc) = true.
Proof.
  induction fuel as [|fuel IH]; intros n acc Hacc; [exact Hacc|].
  cbn [decimal_aux].
  assert (Hd : c0_free (String (digit_char (n mod 10)) acc) = true).
  { change (c0_free (String (digit_char (n mod 10)) EmptyString +:+ acc) = true).
    apply c0_free_app; [|exact Hacc].
    apply c0_free_digit_char. apply Nat.mod_upper_bound. lia. }
  destruct (Nat.ltb n 10); [exact Hd | apply IH; exact Hd].
Qed.

Lemma c0_free_decimal n : c0_free (decimal n) = true.
Proof. apply c0_free_decimal_aux. reflexivity. Qed.

Lemma c0_free_join sep parts :
  c0_free sep = true -> Forall (fun p => c0_free p = true) parts ->
  c0_free (Str.join sep parts) = true.
Proof.
  intros Hsep Hall. induction Hall as [|p ps Hp Hps IH]; [reflexivity|].
  destruct ps as [|q ps]; [exact Hp|].
  change (Str.join sep (p :: q :: ps)) with (p +:+ sep +:+ Str.join sep (q :: ps)).
  apply c0_free_app; [exact Hp|]. apply c0_free_app; [exact Hsep | exact IH].
Qed.

(** The text written for a value holds no control character when the
    separators hold none. *)
Lemma c0_free_dumps isep ksep v :
  c0_free isep = true -> c0_free ksep = true ->
  c0_free (dumps isep ksep v) = true.
Proof.
  intros Hi Hk.
  induction v as [| b | n | s | vs IH | kvs IH] using JsonFacts.json_ind.
  - reflexivity.
  - destruct b; reflexivity.
  - apply c0_free_decimal.
  - apply c0_free_encode_string.
  - cbn [dumps]. apply c0_free_app; [reflexivity|].
    apply c0_free_app; [|reflexivity].
    apply c0_free_join; [exact Hi|]. apply Forall_map. exact IH.
  - cbn [dumps]. apply c0_free_app; [reflexivity|].
    apply c0_free_app; [|reflexivity].
    apply c0_free_join; [exact Hi|]. apply Forall_map.
    eapply List.Forall_impl; [|exact IH]. intros kv Hkv. cbn beta.
    apply c0_free_app; [apply c0_free_encode_string|].
    apply c0_free_app; [exact Hk | exact Hkv].
Qed.

Lemma c0_free_absent c s :
  N.ltb (Char.code c) 32 = true -> c0_free s = true -> occurs c s = false.
Proof.
  intros Hc. induction s as [|x s IH]; [reflexivity|].
  unfold c0_free. cbn [all_chars occurs]. rewrite andb_true_iff.
  intros [Hx Hs]. rewrite (IH Hs), orb_false_r.
  destruct (Ascii.eqb x c) eqn:He; [|reflexivity].
  apply Ascii.eqb_eq in He. subst x.
  apply N.ltb_lt in Hc. apply N.leb_le in Hx. lia.
Qed.

(** The encoder leaves every other character as it is. *)
Lemma escape_char_plain c :
  N.leb 32 (Char.code c) = true ->
  Ascii.eqb c Json.dquote = false -> Ascii.eqb c Json.backslash = false ->
  Json.escape_char c = String c EmptyString.
Proof.
  destruct c as [b0 b1 b2 b3 b4 b5 b6 b7].
  destruct b0, b1, b2, b3, b4, b5, b6, b7; vm_compute; intros H1 H2 H3;
    first [reflexivity | discriminate H1 | discriminate H2 | discriminate H3].
Qed.

End LineFacts.



(** ** What the detectors report is text of the element (lines 115-141) *)

Module MatchFacts.
Import Re.

Lemma take_prefix n s : exists post, s = take n s +:+ post.
Proof.
  revert s. induction n as [|n IH]; intros s.
  - exists s. destruct s; reflexivity.
  - destruct s as [|c s]; [exists EmptyString; reflexivity|].
    destruct (IH s) as [post Hpost]. exists post.
    cbn [take]. change (String c (take n s) +:+ post)
                  with (String c (take n s +:+ post)).
    rewrite <- Hpost. reflexivity.
Qed.

Lemma consumed_inside subj p q : is_suffix (rest p) subj -> substring (consumed p q) subj.
Proof.
  intros [pre Hpre]. unfold consumed.
  destruct (take_prefix (String.length (rest p) - String.length (rest q)) (rest p))
    as [post Hpost].
  exists pre, post. rewrite <- Hpost. exact Hpre.
Qed.

Lemma suffix_tail subj c s : is_suffix (String c s) subj -> is_suffix s subj.
Proof.
  intros [pre ->]. exists (pre +:+ String c EmptyString).
  rewrite JsonFacts.sapp_assoc. reflexivity.
Qed.

Lemma rep_inside {A} subj (step : pos -> (pos -> option A) -> option A) :
  (forall p k a, inside subj p -> step p k = Some a ->
                 exists q, inside subj q /\ k q = Some a) ->
  forall fuel lo hi p k a,
    inside subj p -> rep step fuel lo hi p k = Some a ->
    exists q, inside subj q /\ k q = Some a.
Proof.
  intros Hstep. induction fuel as [|fuel IH]; intros lo hi p k a Hp H.
  - simpl in H. destruct lo; [|discriminate]. exists p. auto.
  - cbn [rep] in H.
    assert (Hstop : match lo with 0 => k p | Datatypes.S _ => None end = Some a ->
                    exists q, inside subj q /\ k q = Some a).
    { destruct lo; [|discriminate]. intros Hk. exists p. auto. }
    destruct hi as [[|n]|].
    + apply Hstop. exact H.
    + match type of H with
      | match ?m with _ => _ end = _ => destruct m as [a'|] eqn:Hm
      end; [|apply Hstop; exact H].
      inversion H; subst a'. apply (Hstep _ _ _ Hp) in Hm.
      destruct Hm as (q & Hq & Hk).
      destruct (Nat.ltb (String.length (rest q)) (String.length (rest p)));
        [|discriminate].
      exact (IH _ _ _ _ _ Hq Hk).
    + match type of H with
      | match ?m with _ => _ end = _ => destruct m as [a'|] eqn:Hm
      end; [|apply Hstop; exact H].
      inversion H; subst a'. apply (Hstep _ _ _ Hp) in Hm.
      destruct Hm as (q & Hq & Hk).
      destruct (Nat.ltb (String.length (rest q)) (String.length (rest p)));
        [|discriminate].
      exact (IH _ _ _ _ _ Hq Hk).
Qed.

(** Matching never leaves the subject. *)
Lemma exec_inside icase {A} subj r : forall p (k : pos -> option A) a,
  inside subj p -> exec icase r p k = Some a ->
  exists q, inside subj q /\ k q = Some a.
Proof.
  induction r as [c | f | r1 IH1 r2 IH2 | r1 IH1 r2 IH2 | r IH lo hi | r IH | r IH |];
    intros p k a Hp H; cbn [exec] in H.
  - destruct (rest p) as [|x s'] eqn:Hr; [discriminate|].
    destruct (lit_ok icase c x); [|discriminate].
    exists (advance x s' p). split; [|exact H].
    destruct Hp as [Hsuf Hg]. split; [|exact Hg].
    cbn. rewrite Hr in Hsuf. exact (suffix_tail _ _ _ Hsuf).
  - destruct (rest p) as [|x s'] eqn:Hr; [discriminate|].
    destruct (f x); [|discriminate].
    exists (advance x s' p). split; [|exact H].
    destruct Hp as [Hsuf Hg]. split; [|exact Hg].
    cbn. rewrite Hr in Hsuf. exact (suffix_tail _ _ _ Hsuf).
  - apply (IH1 _ _ _ Hp) in H. destruct H as (q & Hq & H).
    exact (IH2 _ _ _ Hq H).
  - destruct (exec icase r1 p k) as [a'|] eqn:H1.
    + inversion H; subst a'. exact (IH1 _ _ _ Hp H1).
    + exact (IH2 _ _ _ Hp H).
  - exact (rep_inside subj (exec icase r) IH _ _ _ _ _ _ Hp H).
  - apply (IH _ _ _ Hp) in H. destruct H as (q & Hq & H).
    eexists. split; [|exact H].
    destruct Hq as [Hsuf _]. split; [exact Hsuf|].
    cbn. intros g Hg. inversion Hg; subst g.
    apply consumed_inside. exact (proj1 Hp).
  - exact (IH _ _ _ Hp H).
  - destruct (at_boundary p); [|discriminate]. exists p. auto.
Qed.

Lemma empty_inside subj : substring EmptyString subj.
Proof. exists EmptyString, subj. reflexivity. Qed.

(** Every string [findall] reports occurs in the subject. *)
Lemma scan_inside icase r subj : forall fuel p x,
  is_suffix (rest p) subj -> In x (scan icase r fuel p) -> substring x subj.
Proof.
  induction fuel as [|fuel IH]; intros p x Hp Hin; [destruct Hin|].
  cbn [scan] in Hin.
  assert (Hover : In x match step_over p with
                       | Some p' => scan icase r fuel p'
                       | None => []
                       end -> substring x subj).
  { unfold step_over. destruct (rest p) as [|c s'] eqn:Hr; [intros []|].
    apply IH. cbn. exact (suffix_tail _ _ _ Hp). }
  destruct (match_at icase r p) as [q|] eqn:Hm; [|exact (Hover Hin)].
  unfold match_at in Hm.
  apply (exec_inside icase subj) in Hm;
    [|split; [exact Hp | intros g Hg; discriminate]].
  destruct Hm as (q' & [Hsuf Hgrp] & Hq). inversion Hq; subst q'.
  assert (Hrep : substring (reported r p q) subj).
  { unfold reported. destruct (has_group r).
    - destruct (grp q) as [g|] eqn:Hg; [apply Hgrp; reflexivity | apply empty_inside].
    - apply consumed_inside. exact Hp. }
  destruct (Nat.ltb (String.length (rest q)) (String.length (rest p))).
  - destruct Hin as [<- | Hin]; [exact Hrep|].
    exact (IH (mkPos (prev q) (rest q) None) x Hsuf Hin).
  - destruct Hin as [<- | Hin]; [exact Hrep | exact (Hover Hin)].
Qed.

Lemma findall_inside icase r s x : In x (findall icase r s) -> substring x s.
Proof.
  unfold findall. apply scan_inside. exists EmptyString. reflexivity.
Qed.

Lemma lstrip_suffix s : is_suffix (Str.lstrip s) s.
Proof.
  induction s as [|c s IH]; [exists EmptyString; reflexivity|].
  cbn [Str.lstrip]. destruct (Char.isspace c); [|exists EmptyString; reflexivity].
  destruct IH as [pre Hpre]. exists (String c pre).
  change (String c pre +:+ Str.lstrip s) with (String c (pre +:+ Str.lstrip s)).
  rewrite <- Hpre. reflexivity.
Qed.

Lemma rstrip_prefix s : exists post, s = Str.rstrip s +:+ post.
Proof.
  induction s as [|c s [post Hpost]]; [exists EmptyString; reflexivity|].
  rewrite StrFacts.rstrip_cons.
  destruct (Str.rstrip s) as [|x r] eqn:Hr; cbn [Str.is_empty].
  - destruct (Char.isspace c).
    + exists (String c s). reflexivity.
    + exists s. reflexivity.
  - exists post.
    change (String c (String x r) +:+ post) with (String c (String x r +:+ post)).
    rewrite <- Hpost. reflexivity.
Qed.

(** The stripped text occurs in the text. *)
Lemma strip_inside s : substring (Str.strip s) s.
Proof.
  unfold Str.strip. destruct (lstrip_suffix s) as [pre Hpre].
  destruct (rstrip_prefix (Str.lstrip s)) as [post Hpost].
  exists pre, post. rewrite <- Hpost. exact Hpre.
Qed.

Lemma substring_trans a b c : substring a b -> substring b c -> substring a c.
Proof.
  intros Hab (pre & post & ->). apply substring_inside. exact Hab.
Qed.

End MatchFacts.

Lemma find_numbers_inside content x :
  In x (find_numbers content) -> substring x content.
Proof.
  unfold find_numbers. intros H. apply in_concat in H.
  destruct H as (l & Hl & Hx). apply in_map_iff in Hl.
  destruct Hl as (pattern & <- & _). exact (MatchFacts.findall_inside _ _ _ _ Hx).
Qed.

Lemma find_amounts_inside content x :
  In x (find_amounts content) -> substring x content.
Proof.
  unfold find_amounts. intros H. apply in_concat in H.
  destruct H as (l & Hl & Hx). apply in_map_iff in Hl.
  destruct Hl as (pattern & <- & _). apply in_map_iff in Hx.
  destruct Hx as (raw & <- & Hraw).
  apply (MatchFacts.substring_trans _ raw).
  - apply MatchFacts.strip_inside.
  - exact (MatchFacts.findall_inside _ _ _ _ Hraw).
Qed.

(** X12. The detectors invent nothing: in every emitted item each
    detected number, each detected amount and each detected date is a
    piece of the element's text, as it stands there, character for
    character; and an amount carries no white space at either end. *)
Theorem X12_detected_values_occur_in_text w it :
  In it (items (the_report w)) ->
  exists soup k el,
    fetch w = Page soup /\ nth_error (candidates soup) k = Some el /\
    item_number it = S k /\
    (forall xs x, detected_numbers it = Some xs -> In x xs ->
                  substring x (content_of el)) /\
    (forall xs x, detected_amounts it = Some xs -> In x xs ->
                  substring x (content_of el) /\ Str.strip x = x) /\
    (forall xs x, detected_dates it = Some xs -> In x xs ->
                  substring x (content_of el)).
Proof.
  intros Hin. apply scrape_lonab_item_origin in Hin.
  destruct Hin as (soup & k & el & m & Hf & Hk & Hn & Hs & ->).
  exists soup, k, el.
  cbn [make_item item_number detected_numbers detected_amounts detected_dates].
  split; [exact Hf|]. split; [exact Hn|]. split; [reflexivity|].
  split; [|split].
  - intros xs x H Hx. apply when_nonempty_Some in H. subst xs.
    apply (proj1 (list_set_In _ _)) in Hx. exact (find_numbers_inside _ _ Hx).
  - intros xs x H Hx. apply when_nonempty_Some in H. subst xs.
    apply (proj1 (list_set_In _ _)) in Hx. split; [exact (find_amounts_inside _ _ Hx)|].
    unfold find_amounts in Hx. apply in_concat in Hx.
    destruct Hx as (l & Hl & Hx). apply in_map_iff in Hl.
    destruct Hl as (pattern & <- & _). apply in_map_iff in Hx.
    destruct Hx as (raw & <- & _). apply StrFacts.strip_idem.
  - intros xs x H Hx. apply when_nonempty_Some in H. subst xs.
    exact (MatchFacts.findall_inside _ _ _ _ Hx).
Qed.

Lemma X12_witness :
  exists it,
    In it (items (the_report (world_of page_tirage))) /\
    substring amount_across_lines (content_of tag_tirage).
Proof.
  exists (make_item 1 tag_tirage "2024-01-01T00:00:00").
  assert (Hin : In (make_item 1 tag_tirage "2024-01-01T00:00:00")
                   (items (the_report (world_of page_tirage)))).
  { unfold the_report. rewrite scrape_lonab_items. left. reflexivity. }
  split; [exact Hin|].
  destruct (X12_detected_values_occur_in_text _ _ Hin)
    as (soup & k & el & Hf & Hn & Hi & _ & Ham & _).
  assert (Hel : el = tag_tirage).
  { cbn in Hf. inversion Hf; subst soup. cbn in Hi. inversion Hi; subst k.
    cbn in Hn. inversion Hn. reflexivity. }
  subst el.
  refine (proj1 (Ham [amount_across_lines; "000"] amount_across_lines _ _)).
  - vm_compute. reflexivity.
  - left. reflexivity.
Defined.

(** ** The characters of what the detectors report *)

Module CharFacts.
Import Re.

Lemma all_chars_mono (f f' : ascii -> bool) s :
  (forall c, f c = true -> f' c = true) ->
  all_chars f s = true -> all_chars f' s = true.
Proof.
  intros Hff. induction s as [|c s IH]; [reflexivity|].
  cbn [all_chars]. rewrite !andb_true_iff. intros [Hc Hs]. auto.
Qed.

Lemma moved_refl f p : moved f p p.
Proof. exists EmptyString. split; reflexivity. Qed.

Lemma moved_trans f p q q' : moved f p q -> moved f q q' -> moved f p q'.
Proof.
  intros (m1 & H1 & A1) (m2 & H2 & A2). exists (m1 +:+ m2). split.
  - rewrite H1, H2, JsonFacts.sapp_assoc. reflexivity.
  - rewrite LineFacts.all_chars_app, A1, A2. reflexivity.
Qed.

Lemma moved_mono (f f' : ascii -> bool) p q :
  (forall c, f c = true -> f' c = true) -> moved f p q -> moved f' p q.
Proof.
  intros Hff (m & H & A). exists m. split; [exact H|].
  exact (all_chars_mono f f' m Hff A).
Qed.

Lemma grouped_refl g p : grouped g p p.
Proof. intros t H. left. exact H. Qed.

Lemma grouped_trans g p q q' : grouped g p q -> grouped g q q' -> grouped g p q'.
Proof.
  intros H1 H2 t Ht. destruct (H2 t Ht) as [Hq | Hg]; [exact (H1 t Hq) | right; exact Hg].
Qed.

Lemma grouped_mono (g g' : ascii -> bool) p q :
  (forall c, g c = true -> g' c = true) -> grouped g p q -> grouped g' p q.
Proof.
  intros Hgg H t Ht. destruct (H t Ht) as [Hp | Hg]; [left; exact Hp|].
  right. exact (all_chars_mono g g' t Hgg Hg).
Qed.

Lemma take_app_length mid t :
  take (String.length (mid +:+ t) - String.length t) (mid +:+ t) = mid.
Proof.
  rewrite StrFacts.length_app.
  replace (String.length mid + String.length t - String.length t)
    with (String.length mid) by lia.
  induction mid as [|c mid IH]; [destruct t; reflexivity|].
  change (String c mid +:+ t) with (String c (mid +:+ t)).
  cbn [String.length take]. rewrite IH. reflexivity.
Qed.

Lemma consumed_moved f p q : moved f p q -> all_chars f (consumed p q) = true.
Proof.
  intros (mid & H & A). unfold consumed. rewrite H, take_app_length. exact A.
Qed.

Lemma rep_chars {A} (f g : ascii -> bool)
    (step : pos -> (pos -> option A) -> option A) :
  (forall p k a, step p k = Some a ->
     exists q, k q = Some a /\ moved f p q /\ grouped g p q) ->
  forall fuel lo hi p k a,
    rep step fuel lo hi p k = Some a ->
    exists q, k q = Some a /\ moved f p q /\ grouped g p q.
Proof.
  intros Hstep. induction fuel as [|fuel IH]; intros lo hi p k a H.
  - simpl in H. destruct lo; [|discriminate].
    exists p. auto using moved_refl, grouped_refl.
  - cbn [rep] in H.
    assert (Hstop : match lo with 0 => k p | Datatypes.S _ => None end = Some a ->
                    exists q, k q = Some a /\ moved f p q /\ grouped g p q).
    { destruct lo; [|discriminate]. intros Hk.
      exists p. auto using moved_refl, grouped_refl. }
    destruct hi as [[|n]|].
    + apply Hstop. exact H.
    + match type of H with
      | match ?m with _ => _ end = _ => destruct m as [a'|] eqn:Hm
      end; [|apply Hstop; exact H].
      inversion H; subst a'. apply Hstep in Hm.
      destruct Hm as (q & Hk & Hq1 & Hq2).
      destruct (Nat.ltb (String.length (rest q)) (String.length (rest p)));
        [|discriminate].
      apply IH in Hk. destruct Hk as (q' & Hk' & Hq1' & Hq2').
      exists q'. eauto using moved_trans, grouped_trans.
    + match type of H with
      | match ?m with _ => _ end = _ => destruct m as [a'|] eqn:Hm
      end; [|apply Hstop; exact H].
      inversion H; subst a'. apply Hstep in Hm.
      destruct Hm as (q & Hk & Hq1 & Hq2).
      destruct (Nat.ltb (String.length (rest q)) (String.length (rest p)));
        [|discriminate].
      apply IH in Hk. destruct Hk as (q' & Hk' & Hq1' & Hq2').
      exists q'. eauto using moved_trans, grouped_trans.
Qed.

(** A match consumes only characters its literals and classes accept,
    and its group only characters the group's body accepts. *)
Lemma exec_chars icase {A} r : forall p (k : pos -> option A) a,
  exec icase r p k = Some a ->
  exists q, k q = Some a /\ moved (may icase r) p q
            /\ grouped (group_may icase r) p q.
Proof.
  induction r as [c | f | r1 IH1 r2 IH2 | r1 IH1 r2 IH2 | r IH lo hi | r IH | r IH |];
    intros p k a H; cbn [exec] in H.
  - destruct (rest p) as [|x s'] eqn:Hr; [discriminate|].
    destruct (lit_ok icase c x) eqn:Hc; [|discriminate].
    exists (advance x s' p). split; [exact H|]. split.
    + exists (String x EmptyString). cbn. rewrite Hr, Hc. split; reflexivity.
    + intros t Ht. left. exact Ht.
  - destruct (rest p) as [|x s'] eqn:Hr; [discriminate|].
    destruct (f x) eqn:Hc; [|discriminate].
    exists (advance x s' p). split; [exact H|]. split.
    + exists (String x EmptyString). cbn. rewrite Hr, Hc. split; reflexivity.
    + intros t Ht. left. exact Ht.
  - apply IH1 in H. destruct H as (q1 & H & M1 & G1).
    apply IH2 in H. destruct H as (q2 & H & M2 & G2).
    exists q2. split; [exact H|]. split.
    + apply (moved_trans _ p q1 q2).
      * apply (moved_mono (may icase r1)); [|exact M1].
        intros x Hx. cbn [may]. rewrite Hx. reflexivity.
      * apply (moved_mono (may icase r2)); [|exact M2].
        intros x Hx. cbn [may]. rewrite Hx. apply orb_true_r.
    + apply (grouped_trans _ p q1 q2).
      * apply (grouped_mono (group_may icase r1)); [|exact G1].
        intros x Hx. cbn [group_may]. rewrite Hx. reflexivity.
      * apply (grouped_mono (group_may icase r2)); [|exact G2].
        intros x Hx. cbn [group_may]. rewrite Hx. apply orb_true_r.
  - destruct (exec icase r1 p k) as [a'|] eqn:H1.
    + inversion H; subst a'. apply IH1 in H1. destruct H1 as (q & Hk & M & G).
      exists q. split; [exact Hk|]. split.
      * apply (moved_mono (may icase r1)); [|exact M].
        intros x Hx. cbn [may]. rewrite Hx. reflexivity.
      * apply (grouped_mono (group_may icase r1)); [|exact G].
        intros x Hx. cbn [group_may]. rewrite Hx. reflexivity.
    + apply IH2 in H. destruct H as (q & Hk & M & G).
      exists q. split; [exact Hk|]. split.
      * apply (moved_mono (may icase r2)); [|exact M].
        intros x Hx. cbn [may]. rewrite Hx. apply orb_true_r.
      * apply (grouped_mono (group_may icase r2)); [|exact G].
        intros x Hx. cbn [group_may]. rewrite Hx. apply orb_true_r.
  - exact (rep_chars _ _ (exec icase r) IH _ _ _ _ _ _ H).
  - apply IH in H. destruct H as (q & Hk & M & G).
    eexists. split; [exact Hk|]. split.
    + exact M.
    + intros t Ht. cbn in Ht. inversion Ht; subst t. right.
      cbn [group_may]. exact (consumed_moved _ _ _ M).
  - exact (IH _ _ _ H).
  - destruct (at_boundary p); [|discriminate].
    exists p. auto using moved_refl, grouped_refl.
Qed.

(** What [findall] reports is made of characters the pattern, or its
    group when it has one, can consume. *)
Lemma scan_chars icase r : forall fuel p x,
  In x (scan icase r fuel p) -> all_chars (report_may icase r) x = true.
Proof.
  induction fuel as [|fuel IH]; intros p x Hin; [destruct Hin|].
  cbn [scan] in Hin.
  assert (Hover : In x match step_over p with
                       | Some p' => scan icase r fuel p'
                       | None => []
                       end -> all_chars (report_may icase r) x = true).
  { destruct (step_over p) as [p'|]; [apply IH | intros []]. }
  destruct (match_at icase r p) as [q|] eqn:Hm; [|exact (Hover Hin)].
  unfold match_at in Hm. apply exec_chars in Hm.
  destruct Hm as (q' & Hq & M & G). inversion Hq; subst q'.
  assert (Hrep : all_chars (report_may icase r) (reported r p q) = true).
  { unfold reported.
    destruct (has_group r) eqn:Hg.
    - destruct (grp q) as [t|] eqn:Ht; [|reflexivity].
      destruct (G t Ht) as [Hnone | Hall]; [discriminate Hnone|].
      apply (all_chars_mono (group_may icase r)); [|exact Hall].
      intros c Hc. unfold report_may. rewrite Hg. exact Hc.
    - apply (all_chars_mono (may icase r)).
      + intros c Hc. unfold report_may. rewrite Hg. exact Hc.
      + apply consumed_moved. destruct M as (mid & Hmid & Hall).
        exists mid. split; [exact Hmid | exact Hall]. }
  destruct (Nat.ltb (String.length (rest q)) (String.length (rest p))).
  - destruct Hin as [<- | Hin]; [exact Hrep | exact (IH _ _ Hin)].
  - destruct Hin as [<- | Hin]; [exact Hrep | exact (Hover Hin)].
Qed.

Lemma findall_chars icase r s x :
  In x (findall icase r s) -> all_chars (report_may icase r) x = true.
Proof. unfold findall. apply scan_chars. Qed.

Lemma all_chars_lstrip f s :
  all_chars f s = true -> all_chars f (Str.lstrip s) = true.
Proof.
  induction s as [|c s IH]; [reflexivity|].
  cbn [all_chars Str.lstrip]. rewrite andb_true_iff. intros [Hc Hs].
  destruct (Char.isspace c); [exact (IH Hs)|].
  cbn [all_chars]. rewrite Hc, Hs. reflexivity.
Qed.

Lemma all_chars_rstrip f s :
  all_chars f s = true -> all_chars f (Str.rstrip s) = true.
Proof.
  induction s as [|c s IH]; [reflexivity|].
  cbn [all_chars]. rewrite andb_true_iff. intros [Hc Hs].
  rewrite StrFacts.rstrip_cons. destruct (Str.is_empty (Str.rstrip s)).
  - destruct (Char.isspace c); [reflexivity|].
    cbn [all_chars]. rewrite Hc. reflexivity.
  - cbn [all_chars]. rewrite Hc, (IH Hs). reflexivity.
Qed.

Lemma all_chars_strip f s :
  all_chars f s = true -> all_chars f (Str.strip s) = true.
Proof. intros H. apply all_chars_rstrip, all_chars_lstrip, H. Qed.

Ltac by_cases_on c :=
  destruct c as [b0 b1 b2 b3 b4 b5 b6 b7];
  destruct b0, b1, b2, b3, b4, b5, b6, b7; vm_compute; intros H;
  first [reflexivity | discriminate H].

Lemma number_patterns_chars r c :
  In r Patterns.number_patterns -> report_may false r c = true ->
  number_char c = true.
Proof.
  intros [<- | [<- | [<- | []]]]; revert c; intros c; by_cases_on c.
Qed.

Lemma money_patterns_chars r c :
  In r Patterns.money_patterns -> report_may true r c = true ->
  amount_char c = true.
Proof.
  intros [<- | [<- | [<- | []]]]; revert c; intros c; by_cases_on c.
Qed.

Lemma date_pattern_chars c :
  report_may false Patterns.date_pattern c = true -> date_char c = true.
Proof. by_cases_on c. Qed.

End CharFacts.

(** X13. In every emitted item a detected number is made of digits,
    white space, dashes and slashes only; a detected amount of digits,
    white space, commas and periods only, so it never holds a letter of
    the currency marker; a detected date of digits, slashes and dashes
    only. *)
Theorem X13_detected_values_alphabet w it :
  In it (items (the_report w)) ->
  (forall xs x, detected_numbers it = Some xs -> In x xs ->
                all_chars number_char x = true) /\
  (forall xs x, detected_amounts it = Some xs -> In x xs ->
                all_chars amount_char x = true) /\
  (forall xs x, detected_dates it = Some xs -> In x xs ->
                all_chars date_char x = true).
Proof.
  intros Hin. apply scrape_lonab_item_origin in Hin.
  destruct Hin as (soup & k & el & m & Hf & Hk & Hn & Hs & ->).
  cbn [make_item detected_numbers detected_amounts detected_dates].
  split; [|split].
  - intros xs x H Hx. apply when_nonempty_Some in H. subst xs.
    apply (proj1 (list_set_In _ _)) in Hx.
    unfold find_numbers in Hx. apply in_concat in Hx.
    destruct Hx as (l & Hl & Hx). apply in_map_iff in Hl.
    destruct Hl as (pattern & <- & Hp).
    apply CharFacts.findall_chars in Hx.
    apply (CharFacts.all_chars_mono (report_may false pattern)); [|exact Hx].
    intros c. apply CharFacts.number_patterns_chars. exact Hp.
  - intros xs x H Hx. apply when_nonempty_Some in H. subst xs.
    apply (proj1 (list_set_In _ _)) in Hx.
    unfold find_amounts in Hx. apply in_concat in Hx.
    destruct Hx as (l & Hl & Hx). apply in_map_iff in Hl.
    destruct Hl as (pattern & <- & Hp). apply in_map_iff in Hx.
    destruct Hx as (raw & <- & Hraw).
    apply CharFacts.all_chars_strip.
    apply CharFacts.findall_chars in Hraw.
    apply (CharFacts.all_chars_mono (report_may true pattern)); [|exact Hraw].
    intros c. apply CharFacts.money_patterns_chars. exact Hp.
  - intros xs x H Hx. apply when_nonempty_Some in H. subst xs.
    apply CharFacts.findall_chars in Hx.
    apply (CharFacts.all_chars_mono (report_may false Patterns.date_pattern));
      [|exact Hx].
    exact CharFacts.date_pattern_chars.
Qed.

Lemma X13_witness :
  exists it,
    In it (items (the_report (world_of page_tirage))) /\
    all_chars amount_char amount_across_lines = true.
Proof.
  exists (make_item 1 tag_tirage "2024-01-01T00:00:00").
  assert (Hin : In (make_item 1 tag_tirage "2024-01-01T00:00:00")
                   (items (the_report (world_of page_tirage)))).
  { unfold the_report. rewrite scrape_lonab_items. left. reflexivity. }
  split; [exact Hin|].
  refine (proj1 (proj2 (X13_detected_values_alphabet _ _ Hin))
            [amount_across_lines; "000"] amount_across_lines _ _).
  - vm_compute. reflexivity.
  - left. reflexivity.
Defined.

(** ** The keyword search (lines 71-82) *)

(** X14. When the five selectors all come back empty, the candidates
    are the [div]s of the page that pass the keyword test, in the order
    of the page: a [div] is taken exactly when its text, letters of any
    case, contains one of tirage, resultat, gagnant, numero, fcfa, and
    has more than ten characters once stripped. The report then names
    the keyword search as its selector and counts those [div]s. *)
Theorem X14_keyword_search_candidates w soup :
  fetch w = Page soup ->
  select soup primary_selector = [] ->
  (forall a, In a alternative_selectors -> select soup a = []) ->
  candidates soup = List.filter keyword_div (find_all_div soup) /\
  (forall d, In d (candidates soup) <->
     In d (find_all_div soup) /\
     mentions keywords (Str.lower (get_text d)) /\
     10 < Str.len (Str.strip (Str.lower (get_text d)))) /\
  selector (the_report w) = fallback_selector /\
  raw_count (the_report w) = length (List.filter keyword_div (find_all_div soup)).
Proof.
  intros Hf Hp Ha.
  assert (Hfm : first_match soup strategies
                = (strategies, List.filter keyword_div (find_all_div soup))).
  { unfold strategies, alternative_selectors in *.
    cbn [map app first_match strategy_elements].
    rewrite Hp. rewrite !Ha by (simpl; auto 10). cbn [nonempty].
    destruct (nonempty (List.filter keyword_div (find_all_div soup))) eqn:Hk;
      [reflexivity|].
    rewrite (nonempty_false _ Hk). reflexivity. }
  assert (Hc : candidates soup = List.filter keyword_div (find_all_div soup)).
  { rewrite candidates_first_match, Hfm. reflexivity. }
  assert (Hloc : selector (located soup (report0 w)) = fallback_selector /\
                 raw_count (located soup (report0 w))
                 = length (List.filter keyword_div (find_all_div soup))).
  { unfold located, tried. rewrite Hc, Hfm. split; reflexivity. }
  split; [exact Hc|]. split.
  - intros d. rewrite Hc, filter_In. unfold keyword_div.
    rewrite andb_true_iff, any_in_mentions, Nat.ltb_lt. reflexivity.
  - unfold the_report. destruct (candidates soup) as [|c cs] eqn:Hcs.
    + rewrite (scrape_lonab_none w soup Hf Hcs). exact Hloc.
    + rewrite (scrape_lonab_some w soup Hf) by (rewrite Hcs; discriminate).
      exact Hloc.
Qed.

Lemma X14_witness :
  select page_keywords primary_selector = [] /\
  length (candidates page_keywords) = 2 /\
  selector (the_report (world_of page_keywords)) = fallback_selector.
Proof.
  split; [reflexivity|].
  destruct (X14_keyword_search_candidates (world_of page_keywords) page_keywords
              eq_refl eq_refl (fun a _ => eq_refl))
    as (Hc & _ & Hs & _).
  split; [rewrite Hc; reflexivity | exact Hs].
Defined.

(** ** The texts can be told apart in the output (lines 180, 191) *)

Lemma unescape_plain c t :
  Ascii.eqb c Json.backslash = false ->
  unescape (String c t) = String c (unescape t).
Proof. intros H. cbn [unescape]. rewrite H. reflexivity. Qed.

Lemma unescape_short x t :
  Ascii.eqb x "u" = false ->
  unescape (String Json.backslash (String x t)) =
  String (escaped_char x) (unescape t).
Proof.
  intros H. cbn [unescape].
  change (Ascii.eqb Json.backslash Json.backslash) with true.
  cbn iota. rewrite H. reflexivity.
Qed.

Lemma unescape_hex a b h1 h2 t :
  unescape (String Json.backslash
              (String "u" (String a (String b (String h1 (String h2 t)))))) =
  String (ascii_of_N (16 * hex_value h1 + hex_value h2)) (unescape t).
Proof. reflexivity. Qed.

Lemma sapp_cons a s t : String a s +:+ t = String a (s +:+ t).
Proof. reflexivity. Qed.

Lemma sapp_nil_l t : EmptyString +:+ t = t.
Proof. reflexivity. Qed.

Ltac escape_case :=
  match goal with
  | |- context [Json.escape_char ?c] =>
      let e := eval vm_compute in (Json.escape_char c) in
      change (Json.escape_char c) with e
  end.

Lemma unescape_escape_char c t :
  unescape (Json.escape_char c +:+ t) = String c (unescape t).
Proof.
  destruct c as [b0 b1 b2 b3 b4 b5 b6 b7].
  destruct b0, b1, b2, b3, b4, b5, b6, b7;
    escape_case; rewrite !sapp_cons, sapp_nil_l;
    first [ rewrite unescape_plain by reflexivity
          | rewrite unescape_hex
          | rewrite unescape_short by reflexivity ];
    apply (f_equal (fun a => String a (unescape t)));
    vm_compute; reflexivity.
Qed.

(** Reading back an escaped text gives the text. *)
Lemma unescape_escape_app s t :
  unescape (Json.escape s +:+ t) = s +:+ unescape t.
Proof.
  induction s as [|c s IH]; [reflexivity|].
  cbn [Json.escape]. rewrite JsonFacts.sapp_assoc, unescape_escape_char, IH.
  reflexivity.
Qed.

Lemma sapp_cancel_r s t u : s +:+ u = t +:+ u -> s = t.
Proof.
  revert t. induction s as [|c s IH]; intros [|d t] H.
  - reflexivity.
  - apply (f_equal String.length) in H.
    change (String d t +:+ u) with (String d (t +:+ u)) in H.
    change (EmptyString +:+ u) with u in H.
    cbn [String.length] in H. rewrite StrFacts.length_app in H. lia.
  - apply (f_equal String.length) in H.
    change (String c s +:+ u) with (String c (s +:+ u)) in H.
    change (EmptyString +:+ u) with u in H.
    cbn [String.length] in H. rewrite StrFacts.length_app in H. lia.
  - change (String c (s +:+ u) = String d (t +:+ u)) in H.
    inversion H; subst. f_equal. apply IH. assumption.
Qed.

(** X15. The string encoder of the output loses nothing: an escaped
    text read back gives the text, so two different texts are never
    written as the same JSON string. *)
Theorem X15_string_encoding_is_faithful :
  (forall s, unescape (Json.escape s) = s) /\
  (forall s t, Json.encode_string s = Json.encode_string t -> s = t).
Proof.
  assert (Hback : forall s, unescape (Json.escape s) = s).
  { intros s. rewrite <- (JsonFacts.sapp_nil_r (Json.escape s)).
    rewrite unescape_escape_app. apply JsonFacts.sapp_nil_r. }
  split; [exact Hback|].
  intros s t H. unfold Json.encode_string in H. inversion H as [H'].
  apply sapp_cancel_r in H'.
  rewrite <- (Hback s), <- (Hback t), H'. reflexivity.
Qed.

Lemma X15_witness :
  Json.encode_string text_tirage = Json.encode_string text_tirage /\
  text_tirage = text_tirage.
Proof.
  split; [reflexivity|].
  exact (proj2 X15_string_encoding_is_faithful text_tirage text_tirage
           (eq_refl (Json.encode_string text_tirage))).
Defined.
